(** * Organization monitor: a shallow embedding of [get_organizations.py]

    The program polls an identity provider for organizations, compares the
    listing with a snapshot kept in a JSON file, enriches the members of each
    new organization and posts a message to a webhook.

    Layout of the development:
    - [Py]      the Python values the program manipulates and the exceptions
                it can raise;
    - [Json]    the part of the standard [json] module the program relies on
                ([json.dump] with its default options, [json.load]);
    - [Monitor] the functions of [get_organizations.py], in source order,
                over an explicit interpreter state and an external world;
    - the theorems about them.

    Conventions.  A Python [str] is a list of code points.  Numbers are
    Python [int]s: the values carry no floats, and where a JSON text holds
    one (a fraction, an exponent, [NaN] or [Infinity]) the decoder answers
    [Unmodelled], which is kept apart from the [ValueError] of a text that
    is not JSON.  The float arithmetic of timestamps, the clock, [str()]
    on values that are not strings, the answers of the network and the
    characters the console can write are parameters of the model.  Of the
    calls of [print], those that write text received from the network are
    modelled, since they raise on a character the console cannot encode;
    the others write ASCII text.  File access itself does not fail, and
    [KeyboardInterrupt], which only the main thread receives, does not
    occur. *)

From Stdlib Require Import String Ascii.
From Stdlib Require Import List ZArith NArith PArith Lia Bool.
From Stdlib Require DecimalN DecimalFacts QArith.
Import ListNotations.

Set Implicit Arguments.
Set Warnings "-register-all".
Open Scope N_scope.

(* ================================================================== *)
(** * Part I: definitions                                               *)
(* ================================================================== *)

Module Py.

(** A Python [str]: the sequence of its code points. *)
Definition pystr := list N.

(** Source literals are written as Rocq strings of ASCII characters. *)
Definition lit (s : string) : pystr := map N_of_ascii (list_ascii_of_string s).

Fixpoint str_eqb (a b : pystr) : bool :=
  match a, b with
  | [], [] => true
  | x :: a', y :: b' => (x =? y) && str_eqb a' b'
  | _, _ => false
  end.

(** [sep.join(parts)] *)
Fixpoint join (sep : pystr) (parts : list pystr) : pystr :=
  match parts with
  | [] => []
  | [p] => p
  | p :: rest => p ++ sep ++ join sep rest
  end.

(** The values that flow through the program: what [json] produces and
    consumes, [None] included.  A [dict] keeps its insertion order. *)
Inductive pyval : Type :=
| PNone
| PBool (b : bool)
| PInt (z : Z)
| PStr (s : pystr)
| PList (l : list pyval)
| PDict (d : list (pystr * pyval)).

(** The exceptions the modelled operations raise.  All of them are
    subclasses of [Exception]. *)
Inductive exn : Type :=
| KeyError
| TypeError
| AttributeError
| ValueError          (* json.JSONDecodeError is a ValueError *)
| RecursionError
| OverflowError
| ConnectionError     (* requests.exceptions.RequestException *)
| HTTPError           (* raise_for_status *)
| UnicodeEncodeError  (* print, on a character the console cannot encode *)
| Unmodelled.         (* no exception of Python: a float was met *)

Inductive result (A : Type) : Type :=
| Ok (a : A)
| Raise (e : exn).
Arguments Ok {A} a.
Arguments Raise {A} e.

Definition rbind {A B} (r : result A) (k : A -> result B) : result B :=
  match r with
  | Ok a => k a
  | Raise e => Raise e
  end.

(** [d.get(k)] on the association list of a dict. *)
Fixpoint dict_get (k : pystr) (d : list (pystr * pyval)) : option pyval :=
  match d with
  | [] => None
  | (k', v) :: d' => if str_eqb k k' then Some v else dict_get k d'
  end.

(** [d[k] = v]: an existing key keeps its position. *)
Fixpoint dict_set (k : pystr) (v : pyval) (d : list (pystr * pyval))
  : list (pystr * pyval) :=
  match d with
  | [] => [(k, v)]
  | (k', v') :: d' =>
      if str_eqb k k' then (k', v) :: d' else (k', v') :: dict_set k v d'
  end.

(** [dict(pairs)] *)
Definition dict_of_pairs (pairs : list (pystr * pyval)) : list (pystr * pyval) :=
  fold_left (fun d kv => dict_set (fst kv) (snd kv) d) pairs [].

(** Truth value of an object, as tested by [if x] and [x and y]. *)
Definition truthy (v : pyval) : bool :=
  match v with
  | PNone => false
  | PBool b => b
  | PInt z => negb (z =? 0)%Z
  | PStr s => match s with [] => false | _ => true end
  | PList l => match l with [] => false | _ => true end
  | PDict d => match d with [] => false | _ => true end
  end.

(** [v[k]] for a string key [k]. *)
Definition getitem (v : pyval) (k : pystr) : result pyval :=
  match v with
  | PDict d => match dict_get k d with Some x => Ok x | None => Raise KeyError end
  | _ => Raise TypeError
  end.

(** [v.get(k, default)]: only dicts have the method. *)
Definition get_method (v : pyval) (k : pystr) (default : pyval) : result pyval :=
  match v with
  | PDict d => Ok (match dict_get k d with Some x => x | None => default end)
  | _ => Raise AttributeError
  end.

(** [for x in v]: the items the loop visits. *)
Definition iterate (v : pyval) : result (list pyval) :=
  match v with
  | PList l => Ok l
  | PDict d => Ok (map (fun kv => PStr (fst kv)) d)
  | PStr s => Ok (map (fun c => PStr [c]) s)
  | _ => Raise TypeError
  end.

(** Elements of a [set]: lists and dicts are unhashable. *)
Definition hashable (v : pyval) : bool :=
  match v with
  | PList _ | PDict _ => false
  | _ => true
  end.

Definition int_of_bool (b : bool) : Z := if b then 1%Z else 0%Z.

(** [a == b] on hashable values ([True == 1] and [False == 0] hold). *)
Definition key_eqb (a b : pyval) : bool :=
  match a, b with
  | PNone, PNone => true
  | PBool x, PBool y => Bool.eqb x y
  | PBool x, PInt y => (int_of_bool x =? y)%Z
  | PInt x, PBool y => (x =? int_of_bool y)%Z
  | PInt x, PInt y => (x =? y)%Z
  | PStr x, PStr y => str_eqb x y
  | _, _ => false
  end.

(** [x in s] for a set [s] given by its elements. *)
Definition set_mem (x : pyval) (s : list pyval) : bool := existsb (key_eqb x) s.

(** [needle in hay] for two strings. *)
Fixpoint is_prefix (p s : pystr) : bool :=
  match p, s with
  | [], _ => true
  | x :: p', y :: s' => (x =? y) && is_prefix p' s'
  | _ :: _, [] => false
  end.

Fixpoint str_contains (needle hay : pystr) : bool :=
  is_prefix needle hay ||
  match hay with
  | [] => false
  | _ :: hay' => str_contains needle hay'
  end.

(** [s.split(sep)] for a one-character separator; never the empty list. *)
Fixpoint split_on (sep : N) (s : pystr) : list pystr :=
  match s with
  | [] => [[]]
  | c :: s' =>
      if c =? sep then [] :: split_on sep s'
      else match split_on sep s' with
           | h :: t => (c :: h) :: t
           | [] => [[c]]
           end
  end.

End Py.
Export Py.

Notation "x <-- r ;; k" := (rbind r (fun x => k))
  (at level 61, r at next level, right associativity).

(* ------------------------------------------------------------------ *)
(** ** The [json] module                                                *)
(* ------------------------------------------------------------------ *)

Module Json.

(** *** Encoding ([json.dumps] with the default options:
        [ensure_ascii=True], separators [", "] and [": "]) *)

Definition hex_digit (d : N) : N := if d <? 10 then 48 + d else 87 + d.

(** [format(n, "04x")] for [n < 0x10000] *)
Definition hex4 (n : N) : pystr :=
  [hex_digit (n / 4096); hex_digit ((n / 256) mod 16);
   hex_digit ((n / 16) mod 16); hex_digit (n mod 16)].

(** A backslash, [u] and four hexadecimal digits. *)
Definition u_escape (n : N) : pystr := 92 :: 117 :: hex4 n.

(** The replacement of one character: [ESCAPE_ASCII] matches a quote, a
    backslash and everything outside the range from space to tilde. *)
Definition escape_char (c : N) : pystr :=
  if c =? 34 then [92; 34]
  else if c =? 92 then [92; 92]
  else if c =? 10 then [92; 110]
  else if c =? 13 then [92; 114]
  else if c =? 9 then [92; 116]
  else if c =? 8 then [92; 98]
  else if c =? 12 then [92; 102]
  else if (c <? 32) || (126 <? c) then
    if c <? 65536 then u_escape c
    else
      let n := c - 65536 in
      u_escape (N.lor 55296 (N.land (N.shiftr n 10) 1023))
        ++ u_escape (N.lor 56320 (N.land n 1023))
  else [c].

Definition encode_string (s : pystr) : pystr :=
  34 :: flat_map escape_char s ++ [34].

Definition digit_char (d : N) : N := 48 + d.

Fixpoint uint_chars (d : Decimal.uint) : pystr :=
  match d with
  | Decimal.Nil => []
  | Decimal.D0 d' => 48 :: uint_chars d'
  | Decimal.D1 d' => 49 :: uint_chars d'
  | Decimal.D2 d' => 50 :: uint_chars d'
  | Decimal.D3 d' => 51 :: uint_chars d'
  | Decimal.D4 d' => 52 :: uint_chars d'
  | Decimal.D5 d' => 53 :: uint_chars d'
  | Decimal.D6 d' => 54 :: uint_chars d'
  | Decimal.D7 d' => 55 :: uint_chars d'
  | Decimal.D8 d' => 56 :: uint_chars d'
  | Decimal.D9 d' => 57 :: uint_chars d'
  end.

(** [int.__repr__] *)
Definition encode_int (z : Z) : pystr :=
  match z with
  | Zneg p => 45 :: uint_chars (N.to_uint (Npos p))
  | _ => uint_chars (N.to_uint (Z.to_N z))
  end.

Fixpoint dumps (v : pyval) : pystr :=
  match v with
  | PNone => lit "null"
  | PBool true => lit "true"
  | PBool false => lit "false"
  | PInt z => encode_int z
  | PStr s => encode_string s
  | PList l => 91 :: join (lit ", ") (map dumps l) ++ [93]
  | PDict d =>
      123 :: join (lit ", ")
               (map (fun kv => encode_string (fst kv) ++ lit ": " ++ dumps (snd kv)) d)
          ++ [125]
  end.

(** *** Decoding ([json.loads]) *)

Definition is_ws (c : N) : bool :=
  (c =? 32) || (c =? 9) || (c =? 10) || (c =? 13).

Fixpoint skip_ws (s : pystr) : pystr :=
  match s with
  | c :: s' => if is_ws c then skip_ws s' else s
  | [] => []
  end.

Definition hex_value (c : N) : option N :=
  if (48 <=? c) && (c <=? 57) then Some (c - 48)
  else if (97 <=? c) && (c <=? 102) then Some (c - 87)
  else if (65 <=? c) && (c <=? 70) then Some (c - 55)
  else None.

(** [_decode_uXXXX]: four hexadecimal digits and the rest of the text. *)
Definition decode_hex4 (s : pystr) : option (N * pystr) :=
  match s with
  | a :: b :: c :: d :: rest =>
      match hex_value a, hex_value b, hex_value c, hex_value d with
      | Some x, Some y, Some z, Some w =>
          Some (((x * 16 + y) * 16 + z) * 16 + w, rest)
      | _, _, _, _ => None
      end
  | _ => None
  end.

(** The [BACKSLASH] table. *)
Definition unescape (e : N) : option N :=
  if e =? 34 then Some 34
  else if e =? 92 then Some 92
  else if e =? 47 then Some 47
  else if e =? 98 then Some 8
  else if e =? 102 then Some 12
  else if e =? 110 then Some 10
  else if e =? 114 then Some 13
  else if e =? 116 then Some 9
  else None.

Definition is_high_surrogate (u : N) : bool := (55296 <=? u) && (u <=? 56319).
Definition is_low_surrogate (u : N) : bool := (56320 <=? u) && (u <=? 57343).

(** [scanstring] in strict mode, started after the opening quote: the
    decoded string and the text after the closing quote. *)
Fixpoint scan_string (fuel : nat) (s : pystr) : result (pystr * pystr) :=
  match fuel with
  | O => Raise ValueError
  | S f =>
      match s with
      | [] => Raise ValueError
      | c :: r =>
          if c =? 34 then Ok ([], r)
          else if c =? 92 then
            match r with
            | [] => Raise ValueError
            | e :: r1 =>
                if e =? 117 then
                  match decode_hex4 r1 with
                  | None => Raise ValueError
                  | Some (uni, r2) =>
                      if is_high_surrogate uni && is_prefix [92; 117] r2 then
                        match decode_hex4 (skipn 2 r2) with
                        | None => Raise ValueError
                        | Some (uni2, r3) =>
                            if is_low_surrogate uni2 then
                              p <-- scan_string f r3 ;;
                              Ok (65536 + N.lor (N.shiftl (uni - 55296) 10)
                                                (uni2 - 56320) :: fst p, snd p)
                            else
                              p <-- scan_string f r2 ;;
                              Ok (uni :: fst p, snd p)
                        end
                      else
                        p <-- scan_string f r2 ;;
                        Ok (uni :: fst p, snd p)
                  end
                else
                  match unescape e with
                  | None => Raise ValueError
                  | Some ch =>
                      p <-- scan_string f r1 ;;
                      Ok (ch :: fst p, snd p)
                  end
            end
          else if c <? 32 then Raise ValueError
          else
            p <-- scan_string f r ;;
            Ok (c :: fst p, snd p)
      end
  end.

Definition is_digit (c : N) : bool := (48 <=? c) && (c <=? 57).

Fixpoint scan_digits (s : pystr) : pystr * pystr :=
  match s with
  | c :: s' =>
      if is_digit c then let p := scan_digits s' in (c :: fst p, snd p)
      else ([], s)
  | [] => ([], [])
  end.

Fixpoint uint_of_chars (cs : pystr) : Decimal.uint :=
  match cs with
  | [] => Decimal.Nil
  | c :: cs' =>
      let d := uint_of_chars cs' in
      if c =? 48 then Decimal.D0 d
      else if c =? 49 then Decimal.D1 d
      else if c =? 50 then Decimal.D2 d
      else if c =? 51 then Decimal.D3 d
      else if c =? 52 then Decimal.D4 d
      else if c =? 53 then Decimal.D5 d
      else if c =? 54 then Decimal.D6 d
      else if c =? 55 then Decimal.D7 d
      else if c =? 56 then Decimal.D8 d
      else Decimal.D9 d
  end.

Definition digit_first (s : pystr) : bool :=
  match s with
  | c :: _ => is_digit c
  | [] => false
  end.

(** [NUMBER_RE], the fraction: a dot and at least one digit. *)
Definition fraction_follows (s : pystr) : bool :=
  match s with
  | c :: r => (c =? 46) && digit_first r
  | [] => false
  end.

(** [NUMBER_RE], the exponent: [e] or [E], an optional sign and at least
    one digit. *)
Definition exponent_follows (s : pystr) : bool :=
  match s with
  | c :: r =>
      ((c =? 101) || (c =? 69)) &&
      (digit_first r ||
       match r with
       | d :: r' => ((d =? 43) || (d =? 45)) && digit_first r'
       | [] => false
       end)
  | [] => false
  end.

(** Does a fraction or an exponent follow the integer part?  The number
    is then a float. *)
Definition float_follows (s : pystr) : bool :=
  fraction_follows s || exponent_follows s.

(** [NUMBER_RE]: an optional minus sign, then a single zero or a non-zero
    digit followed by digits; with a fraction or an exponent the number is
    a float.  Where no number starts, the constants [NaN], [Infinity] and
    [-Infinity] are floats too. *)
Definition scan_number (s : pystr) : result (pyval * pystr) :=
  let neg := match s with c :: _ => c =? 45 | [] => false end in
  let s1 := if neg then tl s else s in
  match s1 with
  | [] => Raise ValueError
  | c :: r =>
      if negb (is_digit c) then
        if is_prefix (lit "Infinity") s1 || (negb neg && is_prefix (lit "NaN") s1)
        then Raise Unmodelled
        else Raise ValueError
      else
        let p := if c =? 48 then ([c], r)
                 else let q := scan_digits r in (c :: fst q, snd q) in
        if float_follows (snd p) then Raise Unmodelled
        else
          let n := Z.of_N (N.of_uint (uint_of_chars (fst p))) in
          Ok (PInt (if neg then - n else n)%Z, snd p)
  end.

(** The text must start with the given literal. *)
Definition expect (word : pystr) (v : pyval) (s : pystr) : result (pyval * pystr) :=
  if is_prefix word s then Ok (v, skipn (length word) s) else Raise ValueError.

(** [scan_once], [JSONArray] and [JSONObject].  [parse_value] starts at the
    first character of a value; [parse_elems] after the opening bracket of
    a non-empty array; [parse_members] after the opening quote of a key. *)
Fixpoint parse_value (fuel : nat) (s : pystr) {struct fuel}
  : result (pyval * pystr) :=
  match fuel with
  | O => Raise RecursionError
  | S f =>
      match s with
      | [] => Raise ValueError
      | c :: r =>
          if c =? 34 then
            p <-- scan_string (length s) r ;; Ok (PStr (fst p), snd p)
          else if c =? 123 then
            match skip_ws r with
            | c1 :: r1 =>
                if c1 =? 125 then Ok (PDict [], r1)
                else if c1 =? 34 then
                  p <-- parse_members f r1 ;;
                  Ok (PDict (dict_of_pairs (fst p)), snd p)
                else Raise ValueError
            | [] => Raise ValueError
            end
          else if c =? 91 then
            match skip_ws r with
            | c1 :: r1 =>
                if c1 =? 93 then Ok (PList [], r1)
                else p <-- parse_elems f (c1 :: r1) ;; Ok (PList (fst p), snd p)
            | [] => Raise ValueError
            end
          else if c =? 110 then expect (lit "null") PNone s
          else if c =? 116 then expect (lit "true") (PBool true) s
          else if c =? 102 then expect (lit "false") (PBool false) s
          else scan_number s
      end
  end
with parse_elems (fuel : nat) (s : pystr) {struct fuel}
  : result (list pyval * pystr) :=
  match fuel with
  | O => Raise RecursionError
  | S f =>
      p <-- parse_value f s ;;
      match skip_ws (snd p) with
      | c :: r =>
          if c =? 93 then Ok ([fst p], r)
          else if c =? 44 then
            q <-- parse_elems f (skip_ws r) ;; Ok (fst p :: fst q, snd q)
          else Raise ValueError
      | [] => Raise ValueError
      end
  end
with parse_members (fuel : nat) (s : pystr) {struct fuel}
  : result (list (pystr * pyval) * pystr) :=
  match fuel with
  | O => Raise RecursionError
  | S f =>
      k <-- scan_string (S (length s)) s ;;
      match skip_ws (snd k) with
      | c :: r =>
          if c =? 58 then
            p <-- parse_value f (skip_ws r) ;;
            match skip_ws (snd p) with
            | c1 :: r1 =>
                if c1 =? 125 then Ok ([(fst k, fst p)], r1)
                else if c1 =? 44 then
                  match skip_ws r1 with
                  | c2 :: r2 =>
                      if c2 =? 34 then
                        q <-- parse_members f r2 ;;
                        Ok ((fst k, fst p) :: fst q, snd q)
                      else Raise ValueError
                  | [] => Raise ValueError
                  end
                else Raise ValueError
            | [] => Raise ValueError
            end
          else Raise ValueError
      | [] => Raise ValueError
      end
  end.

(** [json.loads]: one value between optional whitespace, nothing after.
    Twice the length of the text is fuel enough: a call either reads a
    character or follows one that did. *)
Definition loads (s : pystr) : result pyval :=
  p <-- parse_value (S (2 * length s)%nat) (skip_ws s) ;;
  match skip_ws (snd p) with
  | [] => Ok (fst p)
  | _ :: _ => Raise ValueError
  end.

(** The text after an encoded value: the end, or a character that can
    neither extend a number nor start a fraction or an exponent. *)
Definition number_stops (rest : pystr) : bool :=
  match rest with
  | [] => true
  | c :: _ => negb (is_digit c) && negb (float_follows rest)
  end.

(** The first character of an encoded value is neither whitespace nor a
    closing bracket. *)
Definition value_head (s : pystr) : bool :=
  match s with
  | c :: _ => negb (is_ws c) && negb (c =? 93)
  | [] => false
  end.

(** *** The values [json] carries faithfully

    Text made of Unicode scalar values (no surrogate code points), and
    dicts, whose keys are distinct by construction. *)

Definition scalar_value (c : N) : bool :=
  (c <? 55296) || ((57343 <? c) && (c <? 1114112)).

Definition text_ok (s : pystr) : bool := forallb scalar_value s.

Fixpoint distinct_keys (d : list (pystr * pyval)) : bool :=
  match d with
  | [] => true
  | (k, _) :: d' =>
      match dict_get k d' with
      | Some _ => false
      | None => distinct_keys d'
      end
  end.

Fixpoint json_ok (v : pyval) : bool :=
  match v with
  | PStr s => text_ok s
  | PList l => forallb json_ok l
  | PDict d =>
      forallb (fun kv => text_ok (fst kv) && json_ok (snd kv)) d
      && distinct_keys d
  | _ => true
  end.

End Json.

(* ------------------------------------------------------------------ *)
(** ** The program                                                      *)
(* ------------------------------------------------------------------ *)

Module Monitor.

(** *** What the interpreter provides

    Timestamps are Python floats and clock readings are [datetime]
    objects; their arithmetic and formatting are taken as given. *)
Record Runtime : Type := {
  float : Type;
  datetime : Type;
  f_lt : float -> float -> bool;        (* [a < b] *)
  f_add : float -> float -> float;      (* [a + b] *)
  f_mul : float -> float -> float;      (* [a * b] *)
  f_of_int : Z -> result float;         (* conversion of an [int] operand *)
  f_truthy : float -> bool;             (* [bool(a)] *)
  f_0_9 : float;                        (* the literal [0.9] *)
  timestamp : datetime -> float;        (* [d.timestamp()] *)
  strftime : datetime -> pystr;         (* [d.strftime('%Y-%m-%d %H:%M:%S')] *)
  str_other : pyval -> pystr            (* [str(v)] when [v] is not a [str] *)
}.

(** *** Requests and responses *)

Inductive http_method : Type := GET | POST.

Inductive payload : Type :=
| NoPayload
| FormData (d : pyval)       (* the [data] argument *)
| JsonBody (d : pyval).      (* the [json] argument *)

Record request : Type := {
  r_method : http_method;
  r_url : pystr;
  r_headers : list (pystr * pystr);
  r_params : list (pystr * pystr);
  r_payload : payload
}.

Record response : Type := {
  status_code : Z;
  json_body : result pyval     (* what [response.json()] returns or raises *)
}.

Inductive outcome : Type :=
| NetError                     (* the call raised a [RequestException] *)
| Answer (r : response).

Section Program.

Variable R : Runtime.

(** *** Effects, in the order they happen *)
Inductive event : Type :=
| Clock (t : datetime R)                 (* [datetime.now()] *)
| Http (q : request) (o : outcome)       (* a request and what came back *)
| Sleep (seconds : Z).                   (* [time.sleep] *)

(** *** The outside world: environment variables, the answers of the
    network and the clock, each possibly depending on all that happened
    before, and the characters beyond ASCII that the encoding of the
    console ([sys.stdout]) has. *)
Record World : Type := {
  AUTH0_DOMAIN : option pystr;
  AUTH0_CLIENT_ID : option pystr;
  AUTH0_CLIENT_SECRET : option pystr;
  SLACK_WEBHOOK_URL : option pystr;
  net : list event -> request -> outcome;
  clock : list event -> datetime R;
  stdout_encodes : N -> bool
}.

(** *** The state of the process: the two globals, the snapshot file
    [previous_orgs.json] (absent or its text) and the effects so far. *)
Record State : Type := {
  cached_token : pyval;
  token_expiry : option (float R);
  snapshot_file : option pystr;
  history : list event
}.

Definition initial_state : State :=
  {| cached_token := PNone; token_expiry := None;
     snapshot_file := None; history := [] |}.

Variable W : World.

(** *** Computations: state passing with exceptions.  A raised exception
    keeps the state changes made before it. *)
Definition M (A : Type) : Type := State -> result A * State.

Definition ret {A} (a : A) : M A := fun s => (Ok a, s).

Definition bind {A B} (m : M A) (k : A -> M B) : M B :=
  fun s => match m s with
           | (Ok a, s') => k a s'
           | (Raise e, s') => (Raise e, s')
           end.

Definition lift {A} (r : result A) : M A := fun s => (r, s).

(** [try: body  except Exception as e: handler] *)
Definition try_except {A} (body : M A) (handler : exn -> M A) : M A :=
  fun s => match body s with
           | (Ok a, s') => (Ok a, s')
           | (Raise e, s') => handler e s'
           end.

Definition get_state : M State := fun s => (Ok s, s).

Definition record (ev : event) : M unit :=
  fun s => (Ok tt, {| cached_token := cached_token s;
                      token_expiry := token_expiry s;
                      snapshot_file := snapshot_file s;
                      history := history s ++ [ev] |}).

Definition set_cached_token (v : pyval) : M unit :=
  fun s => (Ok tt, {| cached_token := v;
                      token_expiry := token_expiry s;
                      snapshot_file := snapshot_file s;
                      history := history s |}).

Definition set_token_expiry (x : float R) : M unit :=
  fun s => (Ok tt, {| cached_token := cached_token s;
                      token_expiry := Some x;
                      snapshot_file := snapshot_file s;
                      history := history s |}).

Definition write_snapshot (text : pystr) : M unit :=
  fun s => (Ok tt, {| cached_token := cached_token s;
                      token_expiry := token_expiry s;
                      snapshot_file := Some text;
                      history := history s |}).

Local Notation "x <- m ;; k" := (bind m (fun x => k))
  (at level 61, m at next level, right associativity).
Local Notation "m ;;; k" := (bind m (fun _ => k))
  (at level 61, right associativity).

(** [datetime.now()] *)
Definition now : M (datetime R) :=
  s <- get_state ;;
  let t := clock W (history s) in
  record (Clock t) ;;; ret t.

(** [requests.get] and [requests.post] *)
Definition send (q : request) : M response :=
  s <- get_state ;;
  let o := net W (history s) q in
  record (Http q o) ;;;
  match o with
  | NetError => lift (Raise ConnectionError)
  | Answer r => ret r
  end.

(** [response.raise_for_status()]: client and server errors raise. *)
Definition raise_for_status (r : response) : M unit :=
  if ((400 <=? status_code r) && (status_code r <? 600))%Z
  then lift (Raise HTTPError) else ret tt.

(** [time.sleep] *)
Definition sleep (seconds : Z) : M unit := record (Sleep seconds).

(** The characters the console can write: ASCII, which every encoding
    has, and those of the world. *)
Definition console_accepts (c : N) : bool := (c <? 128) || stdout_encodes W c.

(** [print(text)]: the text is encoded for the console, which raises on
    the first character the encoding does not have. *)
Definition print (text : pystr) : M unit :=
  if forallb console_accepts text then ret tt
  else lift (Raise UnicodeEncodeError).

(** [str(v)], as applied by an f-string. *)
Definition str_of (v : pyval) : pystr :=
  match v with
  | PStr s => s
  | _ => str_other R v
  end.

(** The value of an environment variable: a [str] or [None]. *)
Definition env_val (o : option pystr) : pyval :=
  match o with
  | Some s => PStr s
  | None => PNone
  end.

(** [v * 0.9] *)
Definition times_0_9 (v : pyval) : result (float R) :=
  match v with
  | PInt z => x <-- f_of_int R z ;; Ok (f_mul R x (f_0_9 R))
  | PBool b => x <-- f_of_int R (int_of_bool b) ;; Ok (f_mul R x (f_0_9 R))
  | _ => Raise TypeError
  end.

(** *** [get_auth0_token] *)

Definition token_request : request :=
  {| r_method := POST;
     r_url := lit "https://" ++ str_of (env_val (AUTH0_DOMAIN W)) ++ lit "/oauth/token";
     r_headers := [];
     r_params := [];
     r_payload :=
       FormData (PDict
         [(lit "client_id", env_val (AUTH0_CLIENT_ID W));
          (lit "client_secret", env_val (AUTH0_CLIENT_SECRET W));
          (lit "audience",
            PStr (lit "https://" ++ str_of (env_val (AUTH0_DOMAIN W)) ++ lit "/api/v2/"));
          (lit "grant_type", PStr (lit "client_credentials"))]) |}.

(** [cached_token and token_expiry and datetime.now().timestamp() < token_expiry]:
    the clock is read only when both globals are truthy. *)
Definition cache_is_valid : M bool :=
  s <- get_state ;;
  if truthy (cached_token s) then
    match token_expiry s with
    | Some x =>
        if f_truthy R x then
          t <- now ;; ret (f_lt R (timestamp R t) x)
        else ret false
    | None => ret false
    end
  else ret false.

(** The body of the [try] block: the client-credentials exchange. *)
Definition token_exchange : M pyval :=
  response <- send token_request ;;
  raise_for_status response ;;;
  token_data <- lift (json_body response) ;;
  access_token <- lift (getitem token_data (lit "access_token")) ;;
  set_cached_token access_token ;;;
  t <- now ;;
  expires_in <- lift (get_method token_data (lit "expires_in") (PInt 3600)) ;;
  margin <- lift (times_0_9 expires_in) ;;
  set_token_expiry (f_add R (timestamp R t) margin) ;;;
  s <- get_state ;; ret (cached_token s).

(** The handler prints the error; the function then ends without a
    [return] and so yields [None]. *)
Definition get_auth0_token : M pyval :=
  valid <- cache_is_valid ;;
  if valid then
    s <- get_state ;; ret (cached_token s)
  else
    try_except token_exchange (fun _ => ret PNone).

(** *** [send_slack_message] *)

Definition slack_request (url message : pystr) : request :=
  {| r_method := POST;
     r_url := url;
     r_headers := [(lit "Content-Type", lit "application/json")];
     r_params := [];
     r_payload := JsonBody (PDict [(lit "text", PStr message)]) |}.

Definition send_slack_message (message : pystr) : M unit :=
  if negb (truthy (env_val (SLACK_WEBHOOK_URL W))) then ret tt
  else
    try_except
      (response <- send (slack_request (str_of (env_val (SLACK_WEBHOOK_URL W))) message) ;;
       raise_for_status response)
      (fun _ => ret tt).

(** *** [load_previous_orgs] and [save_previous_orgs] *)

Definition load_previous_orgs : M pyval :=
  s <- get_state ;;
  match snapshot_file s with
  | Some text => lift (Json.loads text)
  | None => ret (PList [])
  end.

Definition save_previous_orgs (orgs : pyval) : M unit :=
  write_snapshot (Json.dumps orgs).

(** *** [get_organizations] *)

Definition bearer_headers (token : pyval) : list (pystr * pystr) :=
  [(lit "Authorization", lit "Bearer " ++ str_of token);
   (lit "Content-Type", lit "application/json")].

Definition organizations_request (token : pyval) : request :=
  {| r_method := GET;
     r_url := lit "https://" ++ str_of (env_val (AUTH0_DOMAIN W))
                ++ lit "/api/v2/organizations";
     r_headers := bearer_headers token;
     r_params := [(lit "sort", lit "created_at:-1")];
     r_payload := NoPayload |}.

Definition get_organizations : M pyval :=
  token <- get_auth0_token ;;
  response <- send (organizations_request token) ;;
  raise_for_status response ;;;
  lift (json_body response).

(** *** [get_github_user_info] *)

Definition github_request (github_id : pyval) : request :=
  {| r_method := GET;
     r_url := lit "https://api.github.com/user/" ++ str_of github_id;
     r_headers := [];
     r_params := [];
     r_payload := NoPayload |}.

Definition get_github_user_info (github_id : pyval) : M pyval :=
  try_except
    (response <- send (github_request github_id) ;;
     if (status_code response =? 200)%Z then lift (json_body response)
     else ret PNone)
    (fun _ => ret PNone).

(** *** [get_organization_members] *)

Definition members_request (org_id token : pyval) : request :=
  {| r_method := GET;
     r_url := lit "https://" ++ str_of (env_val (AUTH0_DOMAIN W))
                ++ lit "/api/v2/organizations/" ++ str_of org_id ++ lit "/members";
     r_headers := bearer_headers token;
     r_params := [];
     r_payload := NoPayload |}.

(** ['github' in user_id] *)
Definition contains_github (user_id : pyval) : result bool :=
  match user_id with
  | PStr s => Ok (str_contains (lit "github") s)
  | PList l => Ok (existsb (key_eqb (PStr (lit "github"))) l)
  | PDict d => Ok (match dict_get (lit "github") d with Some _ => true | None => false end)
  | _ => Raise TypeError
  end.

(** [user_id.split('|')[-1]] *)
Definition last_segment (user_id : pyval) : result pyval :=
  match user_id with
  | PStr s => Ok (PStr (last (split_on 124 s) []))
  | _ => Raise AttributeError
  end.

(** The body of the loop over the members: the entry appended to
    [member_details]. *)
Definition member_detail (member : pyval) : M pyval :=
  user_id <- lift (get_method member (lit "user_id") (PStr [])) ;;
  marked <- lift (contains_github user_id) ;;
  github_id <- (if marked then lift (last_segment user_id) else ret PNone) ;;
  github_info <- (if truthy github_id then get_github_user_info github_id
                  else ret PNone) ;;
  name <- lift (get_method member (lit "name") (PStr (lit "Unknown"))) ;;
  email <- lift (get_method member (lit "email") (PStr (lit "No email"))) ;;
  github_url <- (if truthy github_info
                 then lift (get_method github_info (lit "html_url") PNone)
                 else ret PNone) ;;
  ret (PDict [(lit "name", name); (lit "email", email);
              (lit "github_url", github_url)]).

Fixpoint member_loop (members : list pyval) (member_details : list pyval)
  : M (list pyval) :=
  match members with
  | [] => ret member_details
  | member :: rest =>
      entry <- member_detail member ;;
      member_loop rest (member_details ++ [entry])
  end.

Definition get_organization_members (org_id token : pyval) : M pyval :=
  try_except
    (response <- send (members_request org_id token) ;;
     if (status_code response =? 200)%Z then
       members <- lift (json_body response) ;;
       items <- lift (iterate members) ;;
       member_details <- member_loop items [] ;;
       ret (PList member_details)
     else ret (PList []))
    (fun _ => ret (PList [])).

(** *** [find_new_organizations] *)

(** The set comprehension [{org['id'] for org in previous_orgs}]. *)
Fixpoint collect_ids (orgs : list pyval) : result (list pyval) :=
  match orgs with
  | [] => Ok []
  | org :: rest =>
      id <-- getitem org (lit "id") ;;
      if hashable id then ids <-- collect_ids rest ;; Ok (id :: ids)
      else Raise TypeError
  end.

(** The list comprehension [[org for org in current_orgs if ...]]. *)
Fixpoint keep_new (orgs : list pyval) (previous_ids : list pyval)
  : result (list pyval) :=
  match orgs with
  | [] => Ok []
  | org :: rest =>
      id <-- getitem org (lit "id") ;;
      if hashable id then
        kept <-- keep_new rest previous_ids ;;
        Ok (if negb (set_mem id previous_ids) then org :: kept else kept)
      else Raise TypeError
  end.

Definition find_new_organizations (current_orgs previous_orgs : pyval)
  : result (list pyval) :=
  previous <-- iterate previous_orgs ;;
  previous_ids <-- collect_ids previous ;;
  current <-- iterate current_orgs ;;
  keep_new current previous_ids.

(** *** [format_slack_message] *)

Definition party_popper : N := 127881.   (* U+1F389 *)
Definition bullet : N := 8226.           (* U+2022 *)

(** One member line of the message. *)
Definition member_line (member : pyval) : result pystr :=
  url <-- get_method member (lit "github_url") PNone ;;
  github_link <-- (if truthy url
                   then u <-- getitem member (lit "github_url") ;;
                        Ok (lit " (<" ++ str_of u ++ lit "|GitHub>)")
                   else Ok []) ;;
  name <-- get_method member (lit "name") (PStr (lit "Unknown")) ;;
  email <-- get_method member (lit "email") (PStr (lit "No email")) ;;
  Ok (bullet :: lit " " ++ str_of name ++ lit " (" ++ str_of email ++ lit ")"
        ++ github_link).

Fixpoint append_member_lines (members : list pyval) (message : list pystr)
  : result (list pystr) :=
  match members with
  | [] => Ok message
  | member :: rest =>
      line <-- member_line member ;;
      append_member_lines rest (message ++ [line])
  end.

Definition format_slack_message (org members : pyval) : M pystr :=
  name <- lift (getitem org (lit "name")) ;;
  display_name <- lift (getitem org (lit "display_name")) ;;
  id <- lift (getitem org (lit "id")) ;;
  t <- now ;;
  let message :=
    [lit "*New Organization Found!* " ++ [party_popper];
     lit "*Name:* " ++ str_of name;
     lit "*Display Name:* " ++ str_of display_name;
     lit "*ID:* " ++ str_of id;
     lit "*Time:* " ++ strftime R t;
     10 :: lit "*Members:*"] in
  message <- (if truthy members then
                items <- lift (iterate members) ;;
                lift (append_member_lines items message)
              else ret (message ++ [lit "No members found"])) ;;
  ret (join [10] message).

(** *** [print_organization_details] *)

(** The loop printing the members, one line each. *)
Fixpoint print_members (members : list pyval) : M unit :=
  match members with
  | [] => ret tt
  | member :: rest =>
      name <- lift (get_method member (lit "name") (PStr (lit "Unknown"))) ;;
      email <- lift (get_method member (lit "email") (PStr (lit "No email"))) ;;
      print (lit "  - " ++ str_of name ++ lit " (" ++ str_of email ++ lit ")") ;;;
      print_members rest
  end.

(** The heading and the time, which are ASCII text, are printed first,
    then the three fields, each read and printed in turn, all before the
    [try] block. *)
Definition print_organization_details (org : pyval) : M unit :=
  now ;;;
  id <- lift (getitem org (lit "id")) ;;
  print (lit "ID: " ++ str_of id) ;;;
  name <- lift (getitem org (lit "name")) ;;
  print (lit "Name: " ++ str_of name) ;;;
  display_name <- lift (getitem org (lit "display_name")) ;;
  print (lit "Display Name: " ++ str_of display_name) ;;;
  try_except
    (id <- lift (getitem org (lit "id")) ;;
     token <- get_auth0_token ;;
     members <- get_organization_members id token ;;
     (if truthy members then
        items <- lift (iterate members) ;; print_members items
      else ret tt) ;;;
     slack_message <- format_slack_message org members ;;
     send_slack_message slack_message)
    (fun _ => ret tt).

(** *** [poll_organizations] *)

Fixpoint for_each_new (new_orgs : list pyval) : M unit :=
  match new_orgs with
  | [] => ret tt
  | org :: rest => print_organization_details org ;;; for_each_new rest
  end.

(** The body of the [try] block of the loop. *)
Definition cycle : M unit :=
  current_orgs <- get_organizations ;;
  previous_orgs <- load_previous_orgs ;;
  new_orgs <- lift (find_new_organizations current_orgs previous_orgs) ;;
  (match new_orgs with
   | _ :: _ => for_each_new new_orgs
   | [] => now ;;; ret tt
   end) ;;;
  save_previous_orgs current_orgs ;;;
  sleep 60.

(** One turn of [while True]: the [try] block and its handler. *)
Definition poll_iteration : M unit :=
  try_except cycle (fun _ => sleep (5 * 60)).


(** *** Reading the history *)

(** The texts posted to the webhook, oldest first. *)
Definition notification_of (ev : event) : list pystr :=
  match ev with
  | Http q _ =>
      match r_payload q with
      | JsonBody (PDict [(_, PStr message)]) => [message]
      | _ => []
      end
  | _ => []
  end.

Definition notifications (h : list event) : list pystr :=
  flat_map notification_of h.

(** The requests made, oldest first. *)
Definition request_of (ev : event) : list request :=
  match ev with
  | Http q _ => [q]
  | _ => []
  end.

Definition requests (h : list event) : list request := flat_map request_of h.

(** The durations slept, oldest first. *)
Definition sleep_of (ev : event) : list Z :=
  match ev with
  | Sleep n => [n]
  | _ => []
  end.

Definition sleeps (h : list event) : list Z := flat_map sleep_of h.

(** *** Vocabulary of the specification, relative to a world *)

(** The guard of the cache, evaluated in a state: a truthy token, a truthy
    expiry and a clock reading strictly before it. *)
Definition cache_fresh (s : State) : bool :=
  truthy (cached_token s) &&
  match token_expiry s with
  | Some x => f_truthy R x && f_lt R (timestamp R (clock W (history s))) x
  | None => false
  end.

(** The four ways in which the exchange can fail to deliver a token: no
    answer, an error status, a body that is not JSON, a body that is not
    an object with an ["access_token"] entry. *)
Definition no_token (o : outcome) : bool :=
  match o with
  | NetError => true
  | Answer r =>
      ((400 <=? status_code r) && (status_code r <? 600))%Z
      || match json_body r with
         | Raise _ => true
         | Ok (PDict d) =>
             match dict_get (lit "access_token") d with
             | Some _ => false
             | None => true
             end
         | Ok _ => true
         end
  end.

(** [s'] differs from [s] by the events [new] only. *)
Definition extends (s s' : State) (new : list event) : Prop :=
  cached_token s' = cached_token s /\
  token_expiry s' = token_expiry s /\
  snapshot_file s' = snapshot_file s /\
  history s' = history s ++ new.

(** Nothing written, nothing posted, no sleep between [s] and [s']. *)
Definition quiet (s s' : State) : Prop :=
  snapshot_file s' = snapshot_file s /\
  exists new, history s' = history s ++ new /\
              notifications new = [] /\ sleeps new = [].

(** A computation that writes nothing, posts nothing and does not sleep,
    and one whose results all satisfy [P]. *)
Definition quietly {A} (m : M A) : Prop := forall s, quiet s (snd (m s)).

Definition yields {A} (m : M A) (P : A -> Prop) : Prop :=
  forall s a s', m s = (Ok a, s') -> P a.

(** What the lookup of a profile contributes to a member's entry: the
    ["html_url"] of the object received, [None] in every other case. *)
Definition profile_url (o : outcome) : pyval :=
  match o with
  | NetError => PNone
  | Answer r =>
      if (status_code r =? 200)%Z then
        match json_body r with
        | Ok (PDict d) =>
            match dict_get (lit "html_url") d with
            | Some url => url
            | None => PNone
            end
        | _ => PNone
        end
      else PNone
  end.

(** The lookup failed: no answer, a status other than 200, or a body that
    is not JSON. *)
Definition lookup_fails (o : outcome) : bool :=
  match o with
  | NetError => true
  | Answer r =>
      negb (status_code r =? 200)%Z
      || match json_body r with Raise _ => true | Ok _ => false end
  end.

(** A lookup that succeeds delivers a JSON object (or a falsy value). *)
Definition profile_shaped (o : outcome) : bool :=
  match o with
  | NetError => true
  | Answer r =>
      match json_body r with
      | Ok (PDict _) => true
      | Ok v => negb (status_code r =? 200)%Z || negb (truthy v)
      | Raise _ => true
      end
  end.

(** The member listing as the interface describes it: dicts whose
    ["user_id"], when present, is a string. *)
Definition is_member (v : pyval) : bool :=
  match v with
  | PDict d =>
      match dict_get (lit "user_id") d with
      | None | Some (PStr _) => true
      | Some _ => false
      end
  | _ => false
  end.

(** The external identifier of a member: the last segment of an account
    reference that carries the marker, when that segment is not empty. *)
Definition github_id_of (d : list (pystr * pyval)) : option pystr :=
  match dict_get (lit "user_id") d with
  | Some (PStr u) =>
      if str_contains (lit "github") u then
        match last (split_on 124 u) [] with
        | [] => None
        | c :: gid => Some (c :: gid)
        end
      else None
  | _ => None
  end.

Definition name_of (d : list (pystr * pyval)) : pyval :=
  match dict_get (lit "name") d with
  | Some v => v
  | None => PStr (lit "Unknown")
  end.

Definition email_of (d : list (pystr * pyval)) : pyval :=
  match dict_get (lit "email") d with
  | Some v => v
  | None => PStr (lit "No email")
  end.

(** [enriched h members entries h']: starting with history [h], the
    members are turned into entries one after the other, each with its own
    name and email; a member without identifier gets no link and causes no
    request; a member with one causes one lookup, whose outcome, whatever
    it is, decides the link of that member only. *)
Inductive enriched : list event -> list pyval -> list pyval -> list event -> Prop :=
| enriched_nil h : enriched h [] [] h
| enriched_plain h d members entries h' :
    github_id_of d = None ->
    enriched h members entries h' ->
    enriched h (PDict d :: members)
             (PDict [(lit "name", name_of d); (lit "email", email_of d);
                     (lit "github_url", PNone)] :: entries) h'
| enriched_lookup h d gid members entries h' :
    github_id_of d = Some gid ->
    enriched (h ++ [Http (github_request (PStr gid))
                         (net W h (github_request (PStr gid)))])
             members entries h' ->
    enriched h (PDict d :: members)
             (PDict [(lit "name", name_of d); (lit "email", email_of d);
                     (lit "github_url",
                      profile_url (net W h (github_request (PStr gid))))]
              :: entries) h'.






(** The console can write the text of [v]. *)
Definition shows (v : pyval) : bool := forallb console_accepts (str_of v).

(** An organization whose three fields are there and can be printed. *)
Definition presentable (org : pyval) : bool :=
  match getitem org (lit "id"), getitem org (lit "name"),
        getitem org (lit "display_name") with
  | Ok id, Ok name, Ok display_name =>
      shows id && shows name && shows display_name
  | _, _, _ => false
  end.

(** A member whose name and email, or what stands for them, can be
    printed. *)
Definition member_shows (member : pyval) : bool :=
  match member with
  | PDict d => shows (name_of d) && shows (email_of d)
  | _ => true
  end.


End Program.

Arguments Clock {R} t.
Arguments Http {R} q o.
Arguments Sleep {R} seconds.

(** *** Vocabulary of the specification *)

(** The entry [get_organization_members] builds for a member. *)
Definition detail (name email github_url : pyval) : pyval :=
  PDict [(lit "name", name); (lit "email", email);
         (lit "github_url", github_url)].

(** A list of enriched members, each a [detail] of three values. *)
Definition details (members : list (pyval * pyval * pyval)) : list pyval :=
  map (fun m => detail (fst (fst m)) (snd (fst m)) (snd m)) members.

(** The lines printed for these entries can all be written. *)
Definition details_show {R : Runtime} (W : World R)
  (members : list (pyval * pyval * pyval)) : bool :=
  forallb (fun m => shows W (fst (fst m)) && shows W (snd (fst m))) members.

(** The line of an enriched member: name, email and, for a truthy
    ["github_url"], the link. *)
Definition line_of_detail (R : Runtime) (m : pyval * pyval * pyval) : pystr :=
  bullet :: lit " " ++ str_of R (fst (fst m)) ++ lit " (" ++ str_of R (snd (fst m))
    ++ lit ")" ++ (if truthy (snd m) then lit " (<" ++ str_of R (snd m) ++ lit "|GitHub>)"
                   else []).

Definition is_detail (v : pyval) : Prop := exists n e u, v = detail n e u.

(** What the line of a member shows: its name, or ["Unknown"]; its email,
    or ["No email"]; a link when there is a truthy ["github_url"]. *)
Definition shown_name (R : Runtime) (d : list (pystr * pyval)) : pystr :=
  match dict_get (lit "name") d with
  | Some v => str_of R v
  | None => lit "Unknown"
  end.

Definition shown_email (R : Runtime) (d : list (pystr * pyval)) : pystr :=
  match dict_get (lit "email") d with
  | Some v => str_of R v
  | None => lit "No email"
  end.

Definition link_to (R : Runtime) (url : pyval) : pystr :=
  lit " (<" ++ str_of R url ++ lit "|GitHub>)".

Definition shown_link (R : Runtime) (d : list (pystr * pyval)) : pystr :=
  match dict_get (lit "github_url") d with
  | Some url => if truthy url then link_to R url else []
  | None => []
  end.

Definition expected_line (R : Runtime) (d : list (pystr * pyval)) : pystr :=
  bullet :: lit " " ++ shown_name R d ++ lit " (" ++ shown_email R d ++ lit ")"
    ++ shown_link R d.

(** The six items every message starts with. *)
Definition heading (R : Runtime) (name display_name id : pyval) (t : datetime R)
  : list pystr :=
  [lit "*New Organization Found!* " ++ [party_popper];
   lit "*Name:* " ++ str_of R name;
   lit "*Display Name:* " ++ str_of R display_name;
   lit "*ID:* " ++ str_of R id;
   lit "*Time:* " ++ strftime R t;
   10 :: lit "*Members:*"].

(** The message of an organization and its enriched members at a given
    clock reading. *)
Definition message_for (R : Runtime) (name display_name id : pyval)
  (t : datetime R) (members : list (pyval * pyval * pyval)) : pystr :=
  join [10] (heading R name display_name id t ++
             match members with
             | [] => [lit "No members found"]
             | _ :: _ => map (line_of_detail R) members
             end).

(** The identifier of an organization record: the string under ["id"]. *)
Definition org_id (org : pyval) : option pystr :=
  match getitem org (lit "id") with
  | Ok (PStr s) => Some s
  | _ => None
  end.

(** The value under ["id"], for records that have one. *)
Definition id_value (org : pyval) : pyval :=
  match org_id org with
  | Some s => PStr s
  | None => PNone
  end.

Definition is_org (org : pyval) : bool :=
  match org_id org with
  | Some _ => true
  | None => false
  end.

Definition same_id (a b : pyval) : bool :=
  match org_id a, org_id b with
  | Some x, Some y => str_eqb x y
  | _, _ => false
  end.

(** Does the identifier of [org] occur among those of [previous]? *)
Definition known (previous : list pyval) (org : pyval) : bool :=
  existsb (same_id org) previous.

(** Further vocabulary, for the properties beyond the specification. *)

Definition is_dict (v : pyval) : bool :=
  match v with
  | PDict _ => true
  | _ => false
  end.

(** A record the diff can process: a dict with a hashable value under
    ["id"]. *)
Definition has_id (org : pyval) : bool :=
  match getitem org (lit "id") with
  | Ok v => hashable v
  | Raise _ => false
  end.

(** A record [print_organization_details] can announce: the three fields
    are present and the id is a string. *)
Definition announceable (org : pyval) : bool :=
  is_org org &&
  match getitem org (lit "name"), getitem org (lit "display_name") with
  | Ok _, Ok _ => true
  | _, _ => false
  end.

(** An answer of the member listing from which no entry can be built: no
    answer, a status other than 200, a body that is not JSON or cannot be
    iterated, or a body with an item that is not a dict. *)
Definition listing_unusable (o : outcome) : bool :=
  match o with
  | NetError => true
  | Answer r =>
      negb (status_code r =? 200)%Z
      || match json_body r with
         | Raise _ => true
         | Ok v =>
             match iterate v with
             | Raise _ => true
             | Ok items => existsb (fun m => negb (is_dict m)) items
             end
         end
  end.

(** The webhook is not configured: the variable is unset or empty. *)
Definition no_webhook (url : option pystr) : bool :=
  match url with
  | None | Some [] => true
  | Some (_ :: _) => false
  end.

(** Printable ASCII, from space to tilde. *)
Definition printable (c : N) : bool := (32 <=? c) && (c <=? 126).

End Monitor.

(* ------------------------------------------------------------------ *)
(** ** A concrete runtime and concrete worlds, for examples             *)
(* ------------------------------------------------------------------ *)

Module Demo.

Import Monitor.

(** Exact rational arithmetic in place of floats; a clock reading is the
    number of seconds since the epoch. *)
Definition str_scalar (v : pyval) : pystr :=
  match v with
  | PNone => lit "None"
  | PBool true => lit "True"
  | PBool false => lit "False"
  | PInt z => Json.encode_int z
  | PStr s => s
  | PList _ => lit "[...]"
  | PDict _ => lit "{...}"
  end.

Definition rt : Runtime :=
  {| float := QArith_base.Q;
     datetime := QArith_base.Q;
     f_lt := fun a b => negb (QArith_base.Qle_bool b a);
     f_add := QArith_base.Qplus;
     f_mul := QArith_base.Qmult;
     f_of_int := fun z => Ok (QArith_base.inject_Z z);
     f_truthy := fun a => negb (QArith_base.Qeq_bool a (QArith_base.inject_Z 0));
     f_0_9 := QArith_base.Qmake 9 10;
     timestamp := fun t => t;
     strftime := fun _ => lit "2024-05-01 12:00:00";
     str_other := str_scalar |}.

Definition ok_json (v : pyval) : outcome :=
  Answer {| status_code := 200; json_body := Ok v |}.

Definition status_only (code : Z) : outcome :=
  Answer {| status_code := code; json_body := Raise ValueError |}.

Definition domain : pystr := lit "tenant.example.com".
Definition webhook : pystr := lit "https://hooks.example.com/services/T000".

(** A world that answers by kind of request, the same way every time;
    each event takes one second. *)
Definition answer (token listing members : outcome) (profile : pystr -> outcome)
  (q : request) : outcome :=
  match r_payload q with
  | FormData _ => token
  | JsonBody _ => status_only 200
  | NoPayload =>
      if is_prefix (lit "https://api.github.com/user/") (r_url q)
      then profile (skipn 28 (r_url q))
      else if str_contains (lit "/members") (r_url q) then members
      else listing
  end.

Definition seconds (h : list (event rt)) : datetime rt :=
  QArith_base.inject_Z (1714564800 + Z.of_nat (List.length h)).

(** A console in UTF-8: every character but the surrogates. *)
Definition utf8 (c : N) : bool := negb ((55296 <=? c) && (c <=? 57343)).

Definition world (token listing members : outcome) (profile : pystr -> outcome)
  : World rt :=
  @Build_World rt (Some domain) (Some (lit "client")) (Some (lit "secret"))
    (Some webhook)
    (fun _ q => answer token listing members profile q)
    seconds utf8.

Definition org (id name : string) : pyval :=
  PDict [(lit "id", PStr (lit id)); (lit "name", PStr (lit name));
         (lit "display_name", PStr (lit name))].

Definition orgA : pyval := org "A" "alpha".
Definition orgB : pyval := org "B" "beta".

Definition member (user_id name email : string) : pyval :=
  PDict [(lit "user_id", PStr (lit user_id)); (lit "name", PStr (lit name));
         (lit "email", PStr (lit email))].

Definition token_answer : outcome :=
  ok_json (PDict [(lit "access_token", PStr (lit "tok"));
                  (lit "expires_in", PInt 86400)]).


Definition profiles (github_id : pystr) : outcome :=
  if str_eqb github_id (lit "42")
  then ok_json (PDict [(lit "html_url", PStr (lit "https://github.com/ada"))])
  else status_only 404.

(** The provider lists A and B; B has two members, one with a profile. *)
Definition healthy : World rt :=
  world token_answer
        (ok_json (PList [orgA; orgB]))
        (ok_json (PList [member "github|42" "Ada" "ada@example.com";
                         member "github|7" "Bob" "bob@example.com"]))
        profiles.





(** A state with the snapshot of a previous cycle that saw A only. *)
Definition saw_A : State rt :=
  {| cached_token := PNone; token_expiry := None;
     snapshot_file := Some (Json.dumps (PList [orgA])); history := [] |}.


(** A state with the snapshot of a previous cycle that saw A and B. *)
Definition saw_AB : State rt :=
  {| cached_token := PNone; token_expiry := None;
     snapshot_file := Some (Json.dumps (PList [orgA; orgB])); history := [] |}.

(** The world of [healthy] without a webhook. *)
Definition silent : World rt :=
  @Build_World rt (Some domain) (Some (lit "client")) (Some (lit "secret"))
    None (net healthy) seconds utf8.

(** A member listing with an item that is not an object. *)
Definition odd_members : World rt :=
  world token_answer (ok_json (PList [orgA; orgB]))
        (ok_json (PList [member "github|42" "Ada" "ada@example.com";
                         PStr (lit "bob")]))
        profiles.


(** An organization whose name ends in a lone surrogate, as the JSON
    text ["b\ud800"] decodes. *)
Definition orgS : pyval :=
  PDict [(lit "id", PStr (lit "S")); (lit "name", PStr (lit "b" ++ [55296]));
         (lit "display_name", PStr (lit "sigma"))].

Definition lists_surrogate : World rt :=
  world token_answer (ok_json (PList [orgS])) (status_only 500) profiles.

(** A member whose name ends in a lone surrogate. *)
Definition odd_name : World rt :=
  world token_answer (ok_json (PList [orgA; orgB]))
        (ok_json (PList [PDict [(lit "user_id", PStr (lit "auth0|1"));
                                (lit "name", PStr (lit "Eve" ++ [55296]));
                                (lit "email", PStr (lit "eve@example.com"))]]))
        profiles.

(** The provider lists a record that has an id and nothing else. *)
Definition nameless : pyval := PDict [(lit "id", PStr (lit "C"))].

Definition lists_nameless : World rt :=
  world token_answer (ok_json (PList [nameless])) (status_only 500) profiles.

End Demo.

(* ================================================================== *)
(** * Part II: theorems                                                 *)
(* ================================================================== *)

(** ** Values *)

Lemma str_eqb_refl (s : pystr) : str_eqb s s = true.
Proof.
  induction s as [|c s IH]; simpl; [reflexivity|].
  now rewrite N.eqb_refl, IH.
Qed.

Lemma str_eqb_eq (a b : pystr) : str_eqb a b = true <-> a = b.
Proof.
  split; [|intros ->; apply str_eqb_refl].
  revert b; induction a as [|x a IH]; intros [|y b]; simpl; try discriminate; auto.
  intros H; apply andb_true_iff in H as [Hxy Hab].
  apply N.eqb_eq in Hxy; subst; f_equal; auto.
Qed.

Lemma str_eqb_neq (a b : pystr) : str_eqb a b = false <-> a <> b.
Proof.
  split.
  - intros H E; apply str_eqb_eq in E; congruence.
  - intros H; destruct (str_eqb a b) eqn:E; [|reflexivity].
    apply str_eqb_eq in E; contradiction.
Qed.

(** A nested induction principle for values. *)
Lemma pyval_induction (P : pyval -> Prop) :
  P PNone ->
  (forall b, P (PBool b)) ->
  (forall z, P (PInt z)) ->
  (forall s, P (PStr s)) ->
  (forall l, Forall P l -> P (PList l)) ->
  (forall d, Forall (fun kv => P (snd kv)) d -> P (PDict d)) ->
  forall v, P v.
Proof.
  intros HN HB HI HS HL HD.
  fix IH 1.
  intros [ | b | z | s | l | d ].
  - exact HN.
  - apply HB.
  - apply HI.
  - apply HS.
  - apply HL. induction l as [|x l IHl]; constructor; [apply IH | exact IHl].
  - apply HD. induction d as [|[k x] d IHd]; constructor; [apply IH | exact IHd].
Qed.

Lemma dict_set_fresh k v d :
  dict_get k d = None -> dict_set k v d = d ++ [(k, v)].
Proof.
  induction d as [|[k' v'] d IH]; simpl; [reflexivity|].
  destruct (str_eqb k k'); [discriminate|].
  intros H; now rewrite IH.
Qed.

Lemma dict_get_app_none k d d' :
  dict_get k (d ++ d') = None <-> dict_get k d = None /\ dict_get k d' = None.
Proof.
  induction d as [|[k' v'] d IH]; simpl.
  - tauto.
  - destruct (str_eqb k k'); [|exact IH].
    split; [discriminate | intros [H _]; discriminate].
Qed.

Lemma dict_get_none_sym k k' (v v' : pyval) :
  dict_get k [(k', v')] = None -> dict_get k' [(k, v)] = None.
Proof.
  simpl. destruct (str_eqb k k') eqn:E; [discriminate|].
  intros _. apply str_eqb_neq in E.
  destruct (str_eqb k' k) eqn:E'; [|reflexivity].
  apply str_eqb_eq in E'; congruence.
Qed.

Lemma fold_dict_set_distinct (d acc : list (pystr * pyval)) :
  Json.distinct_keys d = true ->
  (forall kv, In kv d -> dict_get (fst kv) acc = None) ->
  fold_left (fun a kv => dict_set (fst kv) (snd kv) a) d acc = acc ++ d.
Proof.
  revert acc; induction d as [|[k v] d IH]; intros acc Hd Hacc; simpl.
  - now rewrite app_nil_r.
  - simpl in Hd. destruct (dict_get k d) eqn:Hk; [discriminate|].
    rewrite dict_set_fresh by (apply (Hacc (k, v)); now left).
    rewrite IH; [now rewrite <- app_assoc | exact Hd |].
    intros [k' v'] Hin; simpl.
    apply dict_get_app_none; split; [apply (Hacc (k', v')); now right|].
    apply dict_get_none_sym with (v' := v').
    simpl. destruct (str_eqb k k') eqn:E; [|reflexivity].
    apply str_eqb_eq in E; subst k'.
    exfalso. clear - Hk Hin.
    induction d as [|[k2 v2] d IHd]; [contradiction|].
    simpl in Hk. destruct (str_eqb k k2) eqn:E; [discriminate|].
    destruct Hin as [Heq|Hin]; [|auto].
    inversion Heq; subst. now rewrite str_eqb_refl in E.
Qed.

Lemma dict_of_pairs_distinct (d : list (pystr * pyval)) :
  Json.distinct_keys d = true -> dict_of_pairs d = d.
Proof.
  intros H. unfold dict_of_pairs.
  now rewrite fold_dict_set_distinct.
Qed.

(** ** The [json] module: decoding inverts encoding *)

Section JsonRoundTrip.

Import Json.

Lemma hex_value_digit d : d < 16 -> hex_value (hex_digit d) = Some d.
Proof.
  intros H.
  assert (d = 0 \/ d = 1 \/ d = 2 \/ d = 3 \/ d = 4 \/ d = 5 \/ d = 6 \/ d = 7 \/
          d = 8 \/ d = 9 \/ d = 10 \/ d = 11 \/ d = 12 \/ d = 13 \/ d = 14 \/
          d = 15) as Hd by lia.
  repeat (destruct Hd as [-> | Hd]; [reflexivity|]). now subst.
Qed.

Lemma decode_hex4_hex4 n rest :
  n < 65536 -> decode_hex4 (hex4 n ++ rest) = Some (n, rest).
Proof.
  intros Hn. unfold hex4, decode_hex4. cbn [app].
  rewrite !hex_value_digit;
    try (apply N.mod_lt; discriminate);
    try (apply N.Div0.div_lt_upper_bound; exact Hn).
  do 2 f_equal. zify. Z.to_euclidean_division_equations. lia.
Qed.

Lemma lor_disjoint_add a b k :
  b < 2 ^ k -> N.lor (a * 2 ^ k) b = a * 2 ^ k + b.
Proof.
  intros Hb.
  assert (E : N.land (a * 2 ^ k) b = 0).
  { apply N.bits_inj; intros i. rewrite N.land_spec, N.bits_0.
    destruct (N.lt_ge_cases i k) as [Hi|Hi].
    - now rewrite N.mul_pow2_bits_low.
    - rewrite <- (N.mod_small b (2 ^ k)) by exact Hb.
      rewrite N.mod_pow2_bits_high by exact Hi. apply andb_false_r. }
  now rewrite N.add_nocarry_lxor, N.lxor_lor.
Qed.

(** The surrogate pair of a code point above the basic plane. *)
Lemma high_surrogate_value n :
  n < 1048576 ->
  N.lor 55296 (N.land (N.shiftr n 10) 1023) = 55296 + n / 1024.
Proof.
  intros Hn.
  change 1023 with (N.ones 10). rewrite N.land_ones, N.shiftr_div_pow2.
  change (2 ^ 10) with 1024.
  assert (n / 1024 < 1024) by (apply N.Div0.div_lt_upper_bound; exact Hn).
  rewrite N.mod_small by assumption.
  change 55296 with (54 * 2 ^ 10). now apply lor_disjoint_add.
Qed.

Lemma low_surrogate_value n :
  N.lor 56320 (N.land n 1023) = 56320 + n mod 1024.
Proof.
  change 1023 with (N.ones 10). rewrite N.land_ones.
  change (2 ^ 10) with 1024.
  change 56320 with (55 * 2 ^ 10). apply lor_disjoint_add.
  apply N.mod_lt. discriminate.
Qed.

Lemma surrogates_combine h l :
  l < 1024 -> N.lor (N.shiftl h 10) l = h * 1024 + l.
Proof.
  intros Hl. rewrite N.shiftl_mul_pow2. now apply lor_disjoint_add.
Qed.

Lemma scan_string_u f r1 :
  scan_string (S f) (92 :: 117 :: r1) =
  match decode_hex4 r1 with
  | None => Raise ValueError
  | Some (uni, r2) =>
      if is_high_surrogate uni && is_prefix [92; 117] r2 then
        match decode_hex4 (skipn 2 r2) with
        | None => Raise ValueError
        | Some (uni2, r3) =>
            if is_low_surrogate uni2 then
              p <-- scan_string f r3 ;;
              Ok (65536 + N.lor (N.shiftl (uni - 55296) 10) (uni2 - 56320) :: fst p,
                  snd p)
            else p <-- scan_string f r2 ;; Ok (uni :: fst p, snd p)
        end
      else p <-- scan_string f r2 ;; Ok (uni :: fst p, snd p)
  end.
Proof. reflexivity. Qed.

(** Scanning the replacement of one character gives the character back. *)
Lemma scan_string_escape c s f :
  scalar_value c = true ->
  scan_string (S f) (escape_char c ++ s) =
  (p <-- scan_string f s ;; Ok (c :: fst p, snd p)).
Proof.
  intros Hc. unfold escape_char.
  destruct (N.eqb_spec c 34) as [->|N34]; [reflexivity|].
  destruct (N.eqb_spec c 92) as [->|N92]; [reflexivity|].
  destruct (N.eqb_spec c 10) as [->|N10]; [reflexivity|].
  destruct (N.eqb_spec c 13) as [->|N13]; [reflexivity|].
  destruct (N.eqb_spec c 9) as [->|N9]; [reflexivity|].
  destruct (N.eqb_spec c 8) as [->|N8]; [reflexivity|].
  destruct (N.eqb_spec c 12) as [->|N12]; [reflexivity|].
  unfold scalar_value in Hc.
  destruct ((c <? 32) || (126 <? c)) eqn:Erange.
  - destruct (N.ltb_spec c 65536) as [H16|H16].
    + unfold u_escape. cbn [app]. rewrite scan_string_u.
      rewrite decode_hex4_hex4 by exact H16.
      replace (is_high_surrogate c) with false; [reflexivity|].
      unfold is_high_surrogate. symmetry.
      apply andb_false_iff.
      apply orb_true_iff in Hc as [Hc|Hc].
      * left. apply N.leb_gt. now apply N.ltb_lt in Hc.
      * right. apply andb_true_iff in Hc as [Hc _].
        apply N.leb_gt. apply N.ltb_lt in Hc. lia.
    + assert (Hmax : c < 1114112).
      { apply orb_true_iff in Hc as [Hc|Hc].
        - apply N.ltb_lt in Hc. lia.
        - apply andb_true_iff in Hc as [_ Hc]. now apply N.ltb_lt in Hc. }
      cbv zeta.
      rewrite high_surrogate_value by lia. rewrite low_surrogate_value.
      set (n := c - 65536).
      assert (Hn : n < 1048576) by (unfold n; lia).
      assert (Hq : n / 1024 < 1024) by (apply N.Div0.div_lt_upper_bound; exact Hn).
      assert (Hr : n mod 1024 < 1024) by (apply N.mod_lt; discriminate).
      pose proof (N.Div0.div_mod n 1024) as Hdm.
      set (q := n / 1024) in *. set (r := n mod 1024) in *.
      unfold u_escape. rewrite <- app_assoc. cbn [app]. rewrite scan_string_u.
      rewrite decode_hex4_hex4 by lia.
      replace (is_high_surrogate (55296 + q)) with true
        by (unfold is_high_surrogate; symmetry; apply andb_true_iff;
            split; apply N.leb_le; lia).
      cbn [is_prefix andb skipn]. rewrite !N.eqb_refl. cbn [andb].
      rewrite decode_hex4_hex4 by lia.
      replace (is_low_surrogate (56320 + r)) with true
        by (unfold is_low_surrogate; symmetry; apply andb_true_iff;
            split; apply N.leb_le; lia).
      replace (55296 + q - 55296) with q by lia.
      replace (56320 + r - 56320) with r by lia.
      rewrite surrogates_combine by exact Hr.
      replace (65536 + (q * 1024 + r)) with c; [reflexivity|].
      unfold n in *. lia.
  - apply orb_false_iff in Erange as [Hlo Hhi].
    cbn [app scan_string].
    destruct (N.eqb_spec c 34); [contradiction|].
    destruct (N.eqb_spec c 92); [contradiction|].
    now rewrite Hlo.
Qed.

Lemma escape_char_length c : (1 <= List.length (escape_char c))%nat.
Proof.
  unfold escape_char, u_escape.
  repeat match goal with
         | |- context [if ?b then _ else _] => destruct b
         end; cbv zeta; rewrite ?length_app; simpl; lia.
Qed.

Lemma scan_string_body s :
  text_ok s = true ->
  forall rest fuel,
    (List.length (flat_map escape_char s) < fuel)%nat ->
    scan_string fuel (flat_map escape_char s ++ 34 :: rest) = Ok (s, rest).
Proof.
  induction s as [|c s IH]; intros Hs rest fuel Hf.
  - destruct fuel; [inversion Hf | reflexivity].
  - simpl in Hs. apply andb_true_iff in Hs as [Hc Hs].
    simpl flat_map in *. rewrite length_app in Hf.
    pose proof (escape_char_length c).
    destruct fuel as [|f]; [lia|].
    rewrite <- app_assoc, scan_string_escape by exact Hc.
    rewrite IH by (auto; lia). reflexivity.
Qed.

(** *** Integers *)

Lemma uint_of_chars_chars d : uint_of_chars (uint_chars d) = d.
Proof. induction d; simpl; congruence. Qed.

Lemma scan_digits_chars d rest :
  number_stops rest = true ->
  scan_digits (uint_chars d ++ rest) = (uint_chars d, rest).
Proof.
  intros Hrest. induction d; cbn [uint_chars app scan_digits];
    try (rewrite IHd; reflexivity).
  destruct rest as [|c r]; [reflexivity|].
  cbn [scan_digits]. simpl in Hrest.
  apply andb_true_iff in Hrest as [Hd _].
  apply negb_true_iff in Hd. now rewrite Hd.
Qed.

(** [N.to_uint] has no leading zero. *)
Lemma to_uint_normal n :
  match N.to_uint n with
  | Decimal.Nil => False
  | Decimal.D0 d => d = Decimal.Nil
  | _ => True
  end.
Proof.
  pose proof (DecimalN.Unsigned.to_of (N.to_uint n)) as H.
  rewrite DecimalN.Unsigned.of_to in H.
  destruct (N.to_uint n) as [|d|d|d|d|d|d|d|d|d|d] eqn:E; try exact I.
  - discriminate H.
  - unfold Decimal.unorm in H. cbn [Decimal.nzhead] in H.
    pose proof (DecimalFacts.nzhead_nonzero d) as Hnz.
    destruct (Decimal.nzhead d) eqn:Ed; try discriminate H.
    + now inversion H.
    + inversion H; subst. exfalso. now apply (Hnz u).
Qed.

(** The digits of a natural number are read back as that number. *)
Lemma scan_unsigned n rest :
  number_stops rest = true ->
  exists c r,
    uint_chars (N.to_uint n) ++ rest = c :: r /\
    is_digit c = true /\
    let p := if c =? 48 then ([c], r)
             else let q := scan_digits r in (c :: fst q, snd q) in
    snd p = rest /\ N.of_uint (uint_of_chars (fst p)) = n.
Proof.
  intros Hrest.
  pose proof (to_uint_normal n) as Hn.
  pose proof (DecimalN.Unsigned.of_to n) as Hof.
  destruct (N.to_uint n) as [|d|d|d|d|d|d|d|d|d|d] eqn:E; [contradiction| ..];
    cbn [uint_chars app]; eexists _, _; (split; [reflexivity|]);
    (split; [reflexivity|]).
  1: subst d; cbn; split; [reflexivity | exact Hof].
  all: cbn -[N.of_uint]; rewrite scan_digits_chars by exact Hrest;
    cbn -[N.of_uint]; now rewrite uint_of_chars_chars.
Qed.

Lemma number_stops_no_float rest :
  number_stops rest = true -> float_follows rest = false.
Proof.
  destruct rest as [|c r]; [reflexivity|]. unfold number_stops.
  intros H. apply andb_true_iff in H as [_ H]. now apply negb_true_iff in H.
Qed.

Lemma digit_not_minus c : is_digit c = true -> (c =? 45) = false.
Proof.
  unfold is_digit. intros H. apply andb_true_iff in H as [H _].
  apply N.leb_le in H. apply N.eqb_neq. lia.
Qed.

Lemma scan_number_encode z rest :
  number_stops rest = true ->
  scan_number (encode_int z ++ rest) = Ok (PInt z, rest).
Proof.
  intros Hrest.
  pose proof (number_stops_no_float _ Hrest) as Hfl.
  destruct z as [|p|p].
  - destruct (scan_unsigned 0 rest Hrest) as (c & r & E & Hd & Hsnd & Hval).
    unfold encode_int. cbn [Z.to_N]. rewrite E. unfold scan_number.
    rewrite (digit_not_minus _ Hd), Hd. cbn [negb].
    cbv zeta in Hsnd, Hval. rewrite Hsnd, Hfl, Hval. reflexivity.
  - destruct (scan_unsigned (Npos p) rest Hrest) as (c & r & E & Hd & Hsnd & Hval).
    unfold encode_int. cbn [Z.to_N]. rewrite E. unfold scan_number.
    rewrite (digit_not_minus _ Hd), Hd. cbn [negb].
    cbv zeta in Hsnd, Hval. rewrite Hsnd, Hfl, Hval. reflexivity.
  - destruct (scan_unsigned (Npos p) rest Hrest) as (c & r & E & Hd & Hsnd & Hval).
    unfold encode_int. cbn [app]. unfold scan_number.
    rewrite N.eqb_refl. cbn [tl]. rewrite E, Hd. cbn [negb].
    cbv zeta in Hsnd, Hval. rewrite Hsnd, Hfl, Hval. reflexivity.
Qed.

Lemma encode_int_head z rest :
  exists c r, encode_int z ++ rest = c :: r /\ (is_digit c = true \/ c = 45).
Proof.
  destruct z as [|p|p].
  - destruct (scan_unsigned 0 [] eq_refl) as (c & r & E & Hd & _).
    rewrite app_nil_r in E. unfold encode_int. cbn [Z.to_N]. rewrite E.
    cbn [app]. eauto.
  - destruct (scan_unsigned (Npos p) [] eq_refl) as (c & r & E & Hd & _).
    rewrite app_nil_r in E. unfold encode_int. cbn [Z.to_N]. rewrite E.
    cbn [app]. eauto.
  - unfold encode_int. cbn [app]. eauto.
Qed.

(** *** Dispatch on the first character *)

Lemma parse_value_string f r :
  parse_value (S f) (34 :: r) =
  (p <-- scan_string (List.length (34 :: r)) r ;; Ok (PStr (fst p), snd p)).
Proof. reflexivity. Qed.

Lemma parse_value_array f r :
  parse_value (S f) (91 :: r) =
  match skip_ws r with
  | c1 :: r1 =>
      if c1 =? 93 then Ok (PList [], r1)
      else p <-- parse_elems f (c1 :: r1) ;; Ok (PList (fst p), snd p)
  | [] => Raise ValueError
  end.
Proof. reflexivity. Qed.

Lemma parse_value_object f r :
  parse_value (S f) (123 :: r) =
  match skip_ws r with
  | c1 :: r1 =>
      if c1 =? 125 then Ok (PDict [], r1)
      else if c1 =? 34 then
        p <-- parse_members f r1 ;; Ok (PDict (dict_of_pairs (fst p)), snd p)
      else Raise ValueError
  | [] => Raise ValueError
  end.
Proof. reflexivity. Qed.

Lemma parse_value_number f c r :
  is_digit c = true \/ c = 45 ->
  parse_value (S f) (c :: r) = scan_number (c :: r).
Proof.
  intros H. cbn [parse_value].
  assert (Hc : c = 45 \/ (48 <= c /\ c <= 57)).
  { destruct H as [H| ->]; [right | now left].
    unfold is_digit in H. apply andb_true_iff in H as [H1 H2].
    apply N.leb_le in H1, H2. lia. }
  destruct (N.eqb_spec c 34); [lia|].
  destruct (N.eqb_spec c 123); [lia|].
  destruct (N.eqb_spec c 91); [lia|].
  destruct (N.eqb_spec c 110); [lia|].
  destruct (N.eqb_spec c 116); [lia|].
  destruct (N.eqb_spec c 102); [lia|].
  reflexivity.
Qed.

Lemma parse_elems_step f s :
  parse_elems (S f) s =
  (p <-- parse_value f s ;;
   match skip_ws (snd p) with
   | c :: r =>
       if c =? 93 then Ok ([fst p], r)
       else if c =? 44 then
         q <-- parse_elems f (skip_ws r) ;; Ok (fst p :: fst q, snd q)
       else Raise ValueError
   | [] => Raise ValueError
   end).
Proof. reflexivity. Qed.

Lemma parse_members_step f s :
  parse_members (S f) s =
  (k <-- scan_string (S (List.length s)) s ;;
   match skip_ws (snd k) with
   | c :: r =>
       if c =? 58 then
         p <-- parse_value f (skip_ws r) ;;
         match skip_ws (snd p) with
         | c1 :: r1 =>
             if c1 =? 125 then Ok ([(fst k, fst p)], r1)
             else if c1 =? 44 then
               match skip_ws r1 with
               | c2 :: r2 =>
                   if c2 =? 34 then
                     q <-- parse_members f r2 ;;
                     Ok ((fst k, fst p) :: fst q, snd q)
                   else Raise ValueError
               | [] => Raise ValueError
               end
             else Raise ValueError
         | [] => Raise ValueError
         end
       else Raise ValueError
   | [] => Raise ValueError
   end).
Proof. reflexivity. Qed.

(** *** First characters *)

Lemma value_head_skip_ws s : value_head s = true -> skip_ws s = s.
Proof.
  destruct s as [|c r]; [discriminate|]. cbn [value_head skip_ws].
  intros H. apply andb_true_iff in H as [H _].
  apply negb_true_iff in H. now rewrite H.
Qed.

Lemma value_head_app s t : value_head s = true -> value_head (s ++ t) = true.
Proof. destruct s; [discriminate | auto]. Qed.

Lemma dumps_value_head v : value_head (dumps v) = true.
Proof.
  destruct v as [ | [|] | z | s | l | d ]; try reflexivity.
  destruct (encode_int_head z []) as (c & r & E & Hc).
  rewrite app_nil_r in E. cbn [dumps]. rewrite E. cbn [value_head].
  assert (Hr : c = 45 \/ (48 <= c /\ c <= 57)).
  { destruct Hc as [H| ->]; [right | now left].
    unfold is_digit in H. apply andb_true_iff in H as [H1 H2].
    apply N.leb_le in H1, H2. lia. }
  unfold is_ws.
  destruct (N.eqb_spec c 32); [lia|].
  destruct (N.eqb_spec c 9); [lia|].
  destruct (N.eqb_spec c 10); [lia|].
  destruct (N.eqb_spec c 13); [lia|].
  destruct (N.eqb_spec c 93); [lia|].
  reflexivity.
Qed.

Lemma dumps_nonempty v : (1 <= List.length (dumps v))%nat.
Proof.
  pose proof (dumps_value_head v) as H.
  destruct (dumps v); [discriminate | simpl; lia].
Qed.

Lemma join_single sep (p : pystr) : join sep [p] = p.
Proof. reflexivity. Qed.

Lemma join_more sep (p q : pystr) ps :
  join sep (p :: q :: ps) = p ++ sep ++ join sep (q :: ps).
Proof. reflexivity. Qed.

Lemma join_cons sep (p : pystr) ps :
  exists t, join sep (p :: ps) = p ++ t.
Proof.
  destruct ps as [|q ps]; [exists []; now rewrite app_nil_r|].
  rewrite join_more. eauto.
Qed.

Lemma skip_ws_space t : skip_ws (32 :: t) = skip_ws t.
Proof. reflexivity. Qed.

Lemma skip_ws_punct c t :
  c = 44 \/ c = 93 \/ c = 125 \/ c = 58 \/ c = 34 -> skip_ws (c :: t) = c :: t.
Proof. intros [->|[->|[->|[->| ->]]]]; reflexivity. Qed.

(** *** Values *)

(** Decoding the encoding of [v], whatever follows it. *)
Let round_trips (v : pyval) : Prop :=
  json_ok v = true ->
  forall fuel rest,
    (List.length (dumps v) <= fuel)%nat ->
    number_stops rest = true ->
    parse_value fuel (dumps v ++ rest) = Ok (v, rest).

Lemma parse_elems_join l :
  Forall round_trips l ->
  forallb json_ok l = true ->
  l <> [] ->
  forall fuel rest,
    (List.length (join (lit ", ") (map dumps l)) < fuel)%nat ->
    parse_elems fuel (join (lit ", ") (map dumps l) ++ 93 :: rest) = Ok (l, rest).
Proof.
  induction l as [|x l IH]; [congruence|].
  intros HF Hok _ fuel rest Hf.
  inversion HF as [|? ? Hx HF']; subst.
  cbn [forallb] in Hok. apply andb_true_iff in Hok as [Hokx Hok].
  destruct fuel as [|f]; [lia|].
  rewrite parse_elems_step.
  destruct l as [|y l].
  - cbn [map] in *. rewrite join_single in *.
    rewrite (Hx Hokx f (93 :: rest)) by (try reflexivity; lia).
    reflexivity.
  - specialize (IH HF' Hok ltac:(discriminate) f rest).
    cbn [map] in *. rewrite join_more in *.
    set (J := join (lit ", ") (dumps y :: map dumps l)) in *.
    change (lit ", ") with [44; 32] in Hf |- *.
    rewrite !length_app in Hf. cbn [List.length] in Hf.
    rewrite <- !app_assoc. cbn [app].
    rewrite (Hx Hokx f) by (try reflexivity; lia).
    cbn [rbind fst snd].
    rewrite skip_ws_punct by tauto. cbn [N.eqb Pos.eqb].
    rewrite skip_ws_space.
    rewrite value_head_skip_ws.
    2:{ destruct (join_cons (lit ", ") (dumps y) (map dumps l)) as [t Ht].
        unfold J. rewrite Ht, <- app_assoc.
        apply value_head_app, dumps_value_head. }
    rewrite IH by lia. reflexivity.
Qed.

Let encode_pair (kv : pystr * pyval) : pystr :=
  encode_string (fst kv) ++ lit ": " ++ dumps (snd kv).

Lemma encode_pair_eq k v :
  encode_pair (k, v) = 34 :: flat_map escape_char k ++ 34 :: 58 :: 32 :: dumps v.
Proof.
  unfold encode_pair, encode_string. cbn [fst snd app].
  now rewrite <- app_assoc.
Qed.

Lemma parse_members_join d :
  Forall (fun kv => round_trips (snd kv)) d ->
  forallb (fun kv => text_ok (fst kv) && json_ok (snd kv)) d = true ->
  d <> [] ->
  forall fuel rest,
    (List.length (join (lit ", ") (map encode_pair d)) < fuel)%nat ->
    parse_members fuel (tl (join (lit ", ") (map encode_pair d) ++ 125 :: rest))
    = Ok (d, rest).
Proof.
  induction d as [|[k v] d IH]; [congruence|].
  intros HF Hok _ fuel rest Hf.
  inversion HF as [|? ? Hv HF']; subst. cbn [snd] in Hv.
  cbn [forallb fst snd] in Hok. apply andb_true_iff in Hok as [Hokkv Hok].
  apply andb_true_iff in Hokkv as [Hokk Hokv].
  destruct fuel as [|f]; [lia|].
  rewrite parse_members_step.
  destruct d as [|[k' v'] d].
  - cbn [map] in *. rewrite join_single in *. rewrite encode_pair_eq in *.
    cbn [List.length] in Hf. rewrite length_app in Hf. cbn [List.length] in Hf.
    cbn [app tl]. rewrite <- !app_assoc. cbn [app].
    rewrite scan_string_body;
      [| exact Hokk | rewrite !length_app; simpl; lia].
    cbn [rbind fst snd].
    rewrite skip_ws_punct by tauto. cbn [N.eqb Pos.eqb].
    rewrite skip_ws_space.
    rewrite value_head_skip_ws by (apply value_head_app, dumps_value_head).
    rewrite (Hv Hokv f (125 :: rest)) by (try reflexivity; lia).
    reflexivity.
  - specialize (IH HF' Hok ltac:(discriminate) f rest).
    cbn [map] in *. rewrite join_more in *.
    set (J := join (lit ", ") (encode_pair (k', v') :: map encode_pair d)) in *.
    assert (HJ : exists t, J = 34 :: t).
    { destruct (join_cons (lit ", ") (encode_pair (k', v')) (map encode_pair d))
        as [t Ht]. unfold J. rewrite Ht, encode_pair_eq. cbn [app]. eauto. }
    destruct HJ as [t HJ]. rewrite HJ in *.
    rewrite encode_pair_eq in *. change (lit ", ") with [44; 32] in Hf |- *.
    cbn [List.length] in Hf. rewrite !length_app in Hf.
    cbn [List.length] in Hf. rewrite !length_app in Hf.
    cbn [List.length] in Hf.
    cbn [app tl List.length] in IH |- *. rewrite <- !app_assoc. cbn [app].
    rewrite scan_string_body;
      [| exact Hokk | rewrite !length_app; simpl; lia].
    cbn [rbind fst snd].
    rewrite skip_ws_punct by tauto. cbn [N.eqb Pos.eqb].
    rewrite skip_ws_space.
    rewrite value_head_skip_ws by (apply value_head_app, dumps_value_head).
    rewrite (Hv Hokv f) by (try reflexivity; lia).
    cbn [rbind fst snd].
    rewrite skip_ws_punct by tauto. cbn [N.eqb Pos.eqb].
    rewrite skip_ws_space.
    rewrite skip_ws_punct by tauto. cbn [N.eqb Pos.eqb].
    rewrite IH by lia. reflexivity.
Qed.

Lemma parse_value_dumps v : round_trips v.
Proof.
  induction v as [ | b | z | s | l IH | d IH ] using pyval_induction;
    intros Hok fuel rest Hf Hrest.
  - destruct fuel as [|f]; [simpl in Hf; lia | reflexivity].
  - destruct fuel as [|f]; [destruct b; simpl in Hf; lia|].
    destruct b; reflexivity.
  - pose proof (dumps_nonempty (PInt z)).
    destruct fuel as [|f]; [lia|]. cbn [dumps].
    destruct (encode_int_head z rest) as (c & r & E & Hc).
    rewrite E, parse_value_number by exact Hc.
    rewrite <- E. now apply scan_number_encode.
  - destruct fuel as [|f]; [simpl in Hf; lia|].
    cbn [dumps json_ok] in *. unfold encode_string. cbn [app].
    rewrite parse_value_string, <- app_assoc. cbn [app].
    rewrite scan_string_body;
      [reflexivity | exact Hok | cbn [List.length]; rewrite length_app; simpl; lia].
  - destruct fuel as [|f]; [simpl in Hf; lia|].
    cbn [dumps json_ok] in *. cbn [app]. rewrite parse_value_array.
    rewrite <- app_assoc. cbn [app].
    destruct l as [|x l]; [reflexivity|].
    cbn [List.length] in Hf. rewrite length_app in Hf. cbn [List.length] in Hf.
    assert (Hhead : value_head (join (lit ", ") (map dumps (x :: l)) ++ 93 :: rest)
                    = true).
    { cbn [map].
      destruct (join_cons (lit ", ") (dumps x) (map dumps l)) as [t ->].
      rewrite <- app_assoc. apply value_head_app, dumps_value_head. }
    rewrite value_head_skip_ws by exact Hhead.
    assert (Hlen : (List.length (join (lit ", ") (map dumps (x :: l))) < f)%nat)
      by lia.
    assert (Hne : x :: l <> []) by discriminate.
    pose proof (parse_elems_join IH Hok Hne rest Hlen) as Hel.
    destruct (join (lit ", ") (map dumps (x :: l)) ++ 93 :: rest) as [|c1 r1];
      [discriminate|].
    cbn [value_head] in Hhead. apply andb_true_iff in Hhead as [_ Hhead].
    apply negb_true_iff in Hhead. rewrite Hhead, Hel. reflexivity.
  - destruct fuel as [|f]; [simpl in Hf; lia|].
    cbn [dumps json_ok] in *. cbn [app]. rewrite parse_value_object.
    rewrite <- app_assoc. cbn [app].
    apply andb_true_iff in Hok as [Hok Hdist].
    destruct d as [|[k v] d]; [reflexivity|].
    cbn [List.length] in Hf. rewrite length_app in Hf. cbn [List.length] in Hf.
    change (fun kv : pystr * pyval => encode_string (fst kv) ++ lit ": " ++ dumps (snd kv))
      with encode_pair in Hf |- *.
    assert (Hlen : (List.length (join (lit ", ") (map encode_pair ((k, v) :: d)))
                    < f)%nat) by (clear - Hf; unfold pystr in *; lia).
    assert (Hne : (k, v) :: d <> []) by discriminate.
    pose proof (parse_members_join IH Hok Hne rest Hlen) as Hmem.
    cbn [map] in Hmem |- *.
    destruct (join_cons (lit ", ") (encode_pair (k, v)) (map encode_pair d))
      as [t Ht].
    unfold pystr in Hmem, Ht |- *.
    rewrite Ht, encode_pair_eq in Hmem |- *. cbn [app tl] in Hmem |- *.
    rewrite skip_ws_punct by tauto. cbn [N.eqb Pos.eqb].
    rewrite Hmem. cbn [rbind fst snd].
    now rewrite dict_of_pairs_distinct.
Qed.

(** [json.loads(json.dumps(v)) == v] *)
Lemma loads_dumps v : json_ok v = true -> loads (dumps v) = Ok v.
Proof.
  intros Hok. unfold loads.
  rewrite value_head_skip_ws by apply dumps_value_head.
  pose proof (parse_value_dumps v) as H. unfold round_trips in H.
  specialize (H Hok (S (2 * List.length (dumps v))%nat) []).
  rewrite app_nil_r in H. rewrite H by (try reflexivity; lia).
  reflexivity.
Qed.

End JsonRoundTrip.

(** ** The program *)

Import Monitor.

(** *** [find_new_organizations] *)

Lemma is_org_getitem org :
  is_org org = true ->
  exists s, getitem org (lit "id") = Ok (PStr s) /\ org_id org = Some s.
Proof.
  unfold is_org, org_id.
  destruct (getitem org (lit "id")) as [[ | | | s | | ]|]; try discriminate.
  eauto.
Qed.

Lemma collect_ids_orgs l :
  forallb is_org l = true -> collect_ids l = Ok (map id_value l).
Proof.
  induction l as [|o l IH]; [reflexivity|].
  cbn [forallb]. intros H. apply andb_true_iff in H as [Ho Hl].
  destruct (is_org_getitem _ Ho) as (s & Hg & Hid).
  cbn [collect_ids map]. rewrite Hg. cbn [rbind hashable].
  rewrite IH by exact Hl. unfold id_value. now rewrite Hid.
Qed.

Lemma keep_new_orgs l ids :
  forallb is_org l = true ->
  keep_new l ids = Ok (filter (fun o => negb (set_mem (id_value o) ids)) l).
Proof.
  induction l as [|o l IH]; [reflexivity|].
  cbn [forallb]. intros H. apply andb_true_iff in H as [Ho Hl].
  destruct (is_org_getitem _ Ho) as (s & Hg & Hid).
  cbn [keep_new filter]. rewrite Hg. cbn [rbind hashable].
  rewrite IH by exact Hl. cbn [rbind].
  replace (id_value o) with (PStr s) by (unfold id_value; now rewrite Hid).
  reflexivity.
Qed.

Lemma set_mem_known previous org :
  is_org org = true ->
  forallb is_org previous = true ->
  set_mem (id_value org) (map id_value previous) = known previous org.
Proof.
  intros Ho Hp. unfold set_mem, known.
  destruct (is_org_getitem _ Ho) as (s & _ & Hid).
  induction previous as [|p l IH]; [reflexivity|].
  cbn [forallb] in Hp. apply andb_true_iff in Hp as [Hp Hl].
  destruct (is_org_getitem _ Hp) as (t & _ & Hidp).
  cbn [map existsb]. rewrite IH by exact Hl. f_equal.
  unfold id_value, same_id. now rewrite Hid, Hidp.
Qed.

Lemma known_spec previous org :
  is_org org = true ->
  known previous org = true <->
  exists p, In p previous /\ org_id p = org_id org.
Proof.
  intros Ho. destruct (is_org_getitem _ Ho) as (s & _ & Hid).
  unfold known. rewrite existsb_exists. unfold same_id. rewrite Hid.
  split; intros (p & Hin & H); exists p; split; auto.
  - destruct (org_id p) as [t|]; [|discriminate].
    apply str_eqb_eq in H. congruence.
  - rewrite H. apply str_eqb_refl.
Qed.

Lemma find_new_organizations_filter (current previous : list pyval) :
  forallb is_org current = true ->
  forallb is_org previous = true ->
  find_new_organizations (PList current) (PList previous)
  = Ok (filter (fun org => negb (known previous org)) current).
Proof.
  intros Hc Hp.
  unfold find_new_organizations. cbn [iterate rbind].
  rewrite collect_ids_orgs by exact Hp. cbn [rbind].
  rewrite keep_new_orgs by exact Hc. f_equal.
  apply filter_ext_in. intros org Ho.
  rewrite set_mem_known; [reflexivity | | exact Hp].
  now apply (proj1 (forallb_forall _ _) Hc).
Qed.

(** C1.  For lists of organization records (dicts with a string under
    ["id"]), [find_new_organizations] returns exactly the elements of
    [current] whose id is not an id of [previous], in the order of
    [current] (the result is [current] filtered); it is a function of its
    two arguments only and leaves them as they are; and the result is empty
    when every id of [current] occurs in [previous]. *)
Theorem find_new_organizations_exact (current previous : list pyval) :
  forallb is_org current = true ->
  forallb is_org previous = true ->
  let result := filter (fun org => negb (known previous org)) current in
  find_new_organizations (PList current) (PList previous) = Ok result
  /\ (forall org, In org result <->
                  In org current /\
                  ~ exists p, In p previous /\ org_id p = org_id org)
  /\ ((forall org, In org current ->
                   exists p, In p previous /\ org_id p = org_id org) ->
      result = []).
Proof.
  intros Hc Hp result.
  assert (Hin : forall org, In org current -> is_org org = true)
    by (intros org; now apply (proj1 (forallb_forall _ _) Hc)).
  split; [|split].
  - now apply find_new_organizations_filter.
  - intros org. unfold result. rewrite filter_In. split.
    + intros [Ho Hk]. split; [exact Ho|].
      apply negb_true_iff in Hk. intros Hex.
      apply (known_spec previous) in Hex; [congruence | auto].
    + intros [Ho Hn]. split; [exact Ho|].
      apply negb_true_iff. destruct (known previous org) eqn:E; [|reflexivity].
      exfalso. apply Hn. apply known_spec; auto.
  - intros Hall. unfold result.
    clear result. induction current as [|o l IH]; [reflexivity|].
    cbn [filter].
    assert (Hk : known previous o = true).
    { apply known_spec; [apply Hin | apply Hall]; now left. }
    rewrite Hk. cbn [negb]. apply IH.
    + cbn [forallb] in Hc. now apply andb_true_iff in Hc as [_ Hc].
    + intros org Ho. apply Hin. now right.
    + intros org Ho. apply Hall. now right.
Qed.

(** C1 on the example: of A and B, with A already seen, B is new. *)
Lemma find_new_organizations_exact_witness :
  forallb is_org [Demo.orgA; Demo.orgB] = true /\
  forallb is_org [Demo.orgA] = true /\
  find_new_organizations (PList [Demo.orgA; Demo.orgB]) (PList [Demo.orgA])
    = Ok [Demo.orgB].
Proof.
  split; [reflexivity|]. split; [reflexivity|].
  exact (proj1 (find_new_organizations_exact [Demo.orgA; Demo.orgB] [Demo.orgA]
                  eq_refl eq_refl)).
Defined.

(** *** [get_auth0_token] *)

Section TokenCache.

Variable R : Runtime.
Variable W : World R.

Lemma extends_refl (s : State R) : extends s s [].
Proof. unfold extends. now rewrite app_nil_r. Qed.

Lemma cache_is_valid_fresh s :
  cache_fresh W s = true ->
  exists s1,
    cache_is_valid W s = (Ok true, s1) /\
    extends s s1 [Clock (clock W (history s))].
Proof.
  unfold cache_fresh, cache_is_valid, now, bind, get_state, record, ret.
  intros H. apply andb_true_iff in H as [Ht H]. rewrite Ht.
  destruct (token_expiry s) as [x|]; [|discriminate].
  apply andb_true_iff in H as [Hx Hlt]. rewrite Hx. cbn.
  rewrite Hlt. eexists; split; [reflexivity|]. repeat split.
Qed.

Lemma cache_is_valid_stale s :
  cache_fresh W s = false ->
  exists s1 new,
    cache_is_valid W s = (Ok false, s1) /\
    extends s s1 new /\
    requests new = [] /\ notifications new = [] /\ sleeps new = [].
Proof.
  unfold cache_fresh, cache_is_valid, now, bind, get_state, record, ret.
  intros H.
  destruct (truthy (cached_token s)).
  2:{ exists s, []. split; [reflexivity|]. split; [apply extends_refl|]. auto. }
  destruct (token_expiry s) as [x|].
  2:{ exists s, []. split; [reflexivity|]. split; [apply extends_refl|]. auto. }
  destruct (f_truthy R x).
  2:{ exists s, []. split; [reflexivity|]. split; [apply extends_refl|]. auto. }
  cbn in H |- *. rewrite H.
  eexists _, [_]. split; [reflexivity|]. repeat split.
Qed.

(** The exchange, step by step: one request; without a token in the
    answer the globals stay as they are; with one, the token is stored, the
    clock is read, and the expiry is stored if the lifetime is a number. *)
Lemma token_exchange_run s1 :
  let o := net W (history s1) (token_request W) in
  exists res s' new,
    token_exchange W s1 = (res, s') /\
    snapshot_file s' = snapshot_file s1 /\
    history s' = history s1 ++ Http (token_request W) o :: new /\
    requests new = [] /\ notifications new = [] /\ sleeps new = [] /\
    (no_token o = true ->
       (exists e, res = Raise e) /\ new = [] /\
       cached_token s' = cached_token s1 /\ token_expiry s' = token_expiry s1) /\
    (no_token o = false ->
       exists r d tok,
         o = Answer r /\ json_body r = Ok (PDict d) /\
         dict_get (lit "access_token") d = Some tok /\
         cached_token s' = tok /\
         new = [Clock (clock W (history s1 ++ [Http (token_request W) o]))] /\
         match times_0_9 R (match dict_get (lit "expires_in") d with
                            | Some v => v
                            | None => PInt 3600
                            end) with
         | Ok margin =>
             res = Ok tok /\
             token_expiry s' =
               Some (f_add R (timestamp R (clock W (history s1 ++
                                                    [Http (token_request W) o])))
                           margin)
         | Raise e => res = Raise e /\ token_expiry s' = token_expiry s1
         end).
Proof.
  cbv zeta.
  unfold token_exchange, send, raise_for_status, now, bind, get_state, record,
    lift, ret, set_cached_token, set_token_expiry, no_token.
  cbn [history cached_token token_expiry snapshot_file].
  destruct (net W (history s1) (token_request W)) as [|r].
  { eexists _, _, []. split; [reflexivity|]. cbn. repeat split; eauto; discriminate. }
  destruct ((400 <=? status_code r)%Z && (status_code r <? 600)%Z).
  { eexists _, _, []. split; [reflexivity|]. cbn. repeat split; eauto; discriminate. }
  destruct (json_body r) as [data|e] eqn:Ej.
  2:{ eexists _, _, []. split; [reflexivity|]. cbn. repeat split; eauto; discriminate. }
  destruct data as [ | b | z | str | l | d ];
    try (eexists _, _, []; split; [reflexivity|]; cbn; repeat split; eauto;
         discriminate).
  cbn [getitem get_method orb].
  destruct (dict_get (lit "access_token") d) as [tok|] eqn:Ea.
  2:{ eexists _, _, []. split; [reflexivity|]. cbn. repeat split; eauto; discriminate. }
  cbn [history cached_token token_expiry snapshot_file].
  destruct (times_0_9 R _) as [margin|e] eqn:Em.
  - eexists _, _, [_]. split; [reflexivity|].
    cbn [history cached_token token_expiry snapshot_file].
    split; [reflexivity|]. split; [now rewrite <- app_assoc|].
    split; [reflexivity|]. split; [reflexivity|]. split; [reflexivity|].
    split; [discriminate|]. intros _.
    exists r, d, tok. rewrite Em. repeat split; assumption.
  - eexists _, _, [_]. split; [reflexivity|].
    cbn [history cached_token token_expiry snapshot_file].
    split; [reflexivity|]. split; [now rewrite <- app_assoc|].
    split; [reflexivity|]. split; [reflexivity|]. split; [reflexivity|].
    split; [discriminate|]. intros _.
    exists r, d, tok. rewrite Em. repeat split; assumption.
Qed.


Lemma notifications_app (h1 h2 : list (event R)) :
  notifications (h1 ++ h2) = notifications h1 ++ notifications h2.
Proof. apply flat_map_app. Qed.

Lemma sleeps_app (h1 h2 : list (event R)) :
  sleeps (h1 ++ h2) = sleeps h1 ++ sleeps h2.
Proof. apply flat_map_app. Qed.

Lemma get_auth0_token_fresh s :
  cache_fresh W s = true ->
  exists s',
    get_auth0_token W s = (Ok (cached_token s), s') /\
    extends s s' [Clock (clock W (history s))].
Proof.
  intros H. destruct (cache_is_valid_fresh s H) as (s1 & Hv & Hext).
  exists s1. split; [|exact Hext].
  unfold get_auth0_token, bind. rewrite Hv.
  unfold get_state, ret. now destruct Hext as (-> & _).
Qed.

Lemma get_auth0_token_stale s :
  cache_fresh W s = false ->
  exists s0 pre,
    extends s s0 pre /\
    requests pre = [] /\ notifications pre = [] /\ sleeps pre = [] /\
    get_auth0_token W s =
      (match fst (token_exchange W s0) with
       | Ok v => Ok v
       | Raise _ => Ok PNone
       end, snd (token_exchange W s0)).
Proof.
  intros H.
  destruct (cache_is_valid_stale s H) as (s0 & pre & Hv & Hext & Hr & Hn & Hs).
  exists s0, pre. repeat (split; [assumption|]).
  unfold get_auth0_token, bind, try_except. rewrite Hv.
  destruct (token_exchange W s0) as [[v|e] s']; reflexivity.
Qed.






End TokenCache.





(** *** Frames: what the fetching functions leave alone *)

Section Frames.

Variable R : Runtime.
Variable W : World R.

Lemma quiet_refl (s : State R) : quiet s s.
Proof.
  split; [reflexivity|]. exists []. now rewrite app_nil_r.
Qed.

Lemma quiet_trans (s1 s2 s3 : State R) : quiet s1 s2 -> quiet s2 s3 -> quiet s1 s3.
Proof.
  intros (Hf1 & n1 & Hh1 & Hn1 & Hs1) (Hf2 & n2 & Hh2 & Hn2 & Hs2).
  split; [congruence|]. exists (n1 ++ n2).
  rewrite Hh2, Hh1, <- app_assoc, notifications_app, sleeps_app, Hn1, Hn2, Hs1, Hs2.
  auto.
Qed.

Lemma extends_quiet (s s' : State R) new :
  extends s s' new -> notifications new = [] -> sleeps new = [] -> quiet s s'.
Proof.
  intros (_ & _ & Hf & Hh) Hn Hs. split; [exact Hf|]. now exists new.
Qed.

Lemma now_quiet s : fst (now W s) = Ok (clock W (history s)) /\ quiet s (snd (now W s)).
Proof.
  split; [reflexivity|]. split; [reflexivity|].
  now exists [Clock (clock W (history s))].
Qed.

(** A request without a JSON payload is not a notification. *)
Lemma send_quiet q s :
  (forall d, r_payload q <> JsonBody d) ->
  quiet s (snd (send W q s)).
Proof.
  intros Hq. unfold send, bind, get_state, record, lift, ret.
  assert (Hn : notifications [Http (R := R) q (net W (history s) q)] = []).
  { cbn. destruct (r_payload q) as [ | d | d ]; try reflexivity.
    now destruct (Hq d). }
  destruct (net W (history s) q); cbn [snd];
    (split; [reflexivity|]; eexists; split; [reflexivity|]; split;
     [exact Hn | reflexivity]).
Qed.

Lemma get_auth0_token_quiet s :
  (exists v, fst (get_auth0_token W s) = Ok v) /\
  quiet s (snd (get_auth0_token W s)).
Proof.
  destruct (cache_fresh W s) eqn:Hf.
  - destruct (get_auth0_token_fresh W s Hf) as (s' & -> & Hext).
    split; [eexists; reflexivity|]. cbn [snd]. now apply (extends_quiet Hext).
  - destruct (get_auth0_token_stale W s Hf)
      as (s0 & pre & Hext & _ & Hn & Hs & ->).
    split; [destruct (fst (token_exchange W s0)); eexists; reflexivity|].
    cbn [snd].
    apply quiet_trans with s0; [now apply (extends_quiet Hext)|].
    destruct (token_exchange_run W s0)
      as (res & s' & new & -> & Hfile & Hh & _ & Hn' & Hs' & _).
    cbn [snd]. split; [exact Hfile|].
    eexists. split; [exact Hh|]. split.
    + change (notifications (Http (token_request W)
                (net W (history s0) (token_request W)) :: new))
        with (notifications new). exact Hn'.
    + exact Hs'.
Qed.

Lemma get_organizations_quiet s : quiet s (snd (get_organizations W s)).
Proof.
  unfold get_organizations, bind.
  destruct (get_auth0_token_quiet s) as ((token & Hv) & Hq).
  destruct (get_auth0_token W s) as [res s1]. cbn [fst snd] in *. subst res.
  pose proof (send_quiet (organizations_request W token) s1) as Hsend.
  destruct (send W (organizations_request W token) s1) as [[r|e] s2];
    cbn [snd] in *.
  - unfold raise_for_status, lift, ret.
    destruct ((400 <=? status_code r)%Z && (status_code r <? 600)%Z);
      cbn [snd]; (apply quiet_trans with s1; [exact Hq|]);
      apply Hsend; discriminate.
  - apply quiet_trans with s1; [exact Hq|]. apply Hsend; discriminate.
Qed.


End Frames.


(** *** [save_previous_orgs] and [load_previous_orgs] *)

(** C5.  Saving a sequence of valid records (text made of Unicode scalar
    values; any nesting of dicts, lists, strings, integers, booleans and
    [None]) and loading the file back returns that sequence; the empty
    sequence satisfies the hypothesis by computation.  The save itself
    always succeeds and changes nothing but the file. *)
Theorem save_then_load (R : Runtime) (orgs : list pyval) (s : State R) :
  forallb Json.json_ok orgs = true ->
  exists s1,
    save_previous_orgs (PList orgs) s = (Ok tt, s1) /\
    history s1 = history s /\
    cached_token s1 = cached_token s /\
    token_expiry s1 = token_expiry s /\
    load_previous_orgs s1 = (Ok (PList orgs), s1).
Proof.
  intros Hok.
  eexists. split; [reflexivity|]. repeat (split; [reflexivity|]).
  unfold load_previous_orgs, bind, get_state, lift.
  cbn [snapshot_file]. now rewrite loads_dumps.
Qed.

(** C5 on the example: two records, and the empty sequence. *)
Lemma save_then_load_witness :
  forallb Json.json_ok [Demo.orgA; Demo.orgB] = true /\
  forallb Json.json_ok [] = true /\
  (exists s1,
     save_previous_orgs (PList [Demo.orgA; Demo.orgB]) (initial_state Demo.rt)
       = (Ok tt, s1) /\
     load_previous_orgs s1 = (Ok (PList [Demo.orgA; Demo.orgB]), s1)) /\
  (exists s1,
     save_previous_orgs (PList []) Demo.saw_A = (Ok tt, s1) /\
     load_previous_orgs s1 = (Ok (PList []), s1)).
Proof.
  split; [reflexivity|]. split; [reflexivity|]. split.
  - destruct (@save_then_load Demo.rt [Demo.orgA; Demo.orgB]
                (initial_state Demo.rt) eq_refl) as (s1 & H1 & _ & _ & _ & H2).
    exists s1. split; assumption.
  - destruct (@save_then_load Demo.rt [] Demo.saw_A eq_refl)
      as (s1 & H1 & _ & _ & _ & H2).
    exists s1. split; assumption.
Defined.

(** *** [format_slack_message] *)

Section Formatting.

Variable R : Runtime.
Variable W : World R.

Lemma str_contains_app_r x pre post :
  str_contains x post = true -> str_contains x (pre ++ post) = true.
Proof.
  intros H. induction pre as [|c pre IH]; [exact H|].
  cbn [app str_contains]. rewrite IH. apply orb_true_r.
Qed.

Lemma is_prefix_app x post : is_prefix x (x ++ post) = true.
Proof.
  induction x as [|c x IH]; [reflexivity|].
  cbn [app is_prefix]. now rewrite N.eqb_refl, IH.
Qed.

Lemma str_contains_infix x pre post : str_contains x (pre ++ x ++ post) = true.
Proof.
  apply str_contains_app_r.
  destruct (x ++ post) eqn:E; cbn [str_contains];
    rewrite <- E, is_prefix_app; reflexivity.
Qed.

(** A part of a joined text occurs in it, and so does what it contains. *)
Lemma join_decompose sep (p : pystr) parts :
  In p parts -> exists a b, join sep parts = a ++ p ++ b.
Proof.
  induction parts as [|q parts IH]; [contradiction|].
  intros [->|Hin].
  - destruct parts as [|q' parts].
    + exists [], []. rewrite join_single. now rewrite app_nil_r.
    + exists [], (sep ++ join sep (q' :: parts)). now rewrite join_more.
  - destruct parts as [|q' parts]; [contradiction|].
    destruct (IH Hin) as (a & b & E).
    exists (q ++ sep ++ a), b. rewrite join_more, E.
    now rewrite <- !app_assoc.
Qed.

Lemma join_contains sep (x pre post : pystr) parts :
  In (pre ++ x ++ post) parts -> str_contains x (join sep parts) = true.
Proof.
  intros Hin. destruct (join_decompose sep _ _ Hin) as (a & b & ->).
  replace (a ++ (pre ++ x ++ post) ++ b) with ((a ++ pre) ++ x ++ (post ++ b))
    by now rewrite <- !app_assoc.
  apply str_contains_infix.
Qed.

Lemma member_line_dict d : member_line R (PDict d) = Ok (expected_line R d).
Proof.
  unfold member_line, expected_line, shown_name, shown_email, shown_link, link_to.
  cbn [get_method getitem rbind].
  destruct (dict_get (lit "github_url") d) as [url|].
  - destruct (truthy url); cbn [rbind];
      destruct (dict_get (lit "name") d), (dict_get (lit "email") d);
      reflexivity.
  - cbn [truthy rbind].
    destruct (dict_get (lit "name") d), (dict_get (lit "email") d);
      reflexivity.
Qed.

Lemma append_member_lines_dicts ds message :
  append_member_lines R (map PDict ds) message
  = Ok (message ++ map (expected_line R) ds).
Proof.
  revert message. induction ds as [|d ds IH]; intros message.
  - cbn. now rewrite app_nil_r.
  - cbn [map append_member_lines]. rewrite member_line_dict. cbn [rbind].
    rewrite IH, <- app_assoc. reflexivity.
Qed.

(** The message for an organization that has the three fields and for
    members that are dicts, whatever their keys. *)
Lemma format_slack_message_run org name display_name id ds s :
  getitem org (lit "name") = Ok name ->
  getitem org (lit "display_name") = Ok display_name ->
  getitem org (lit "id") = Ok id ->
  format_slack_message W org (PList (map PDict ds)) s =
  (Ok (join [10]
         (heading R name display_name id (clock W (history s)) ++
          match ds with
          | [] => [lit "No members found"]
          | _ :: _ => map (expected_line R) ds
          end)),
   snd (now W s)).
Proof.
  intros Hn Hd Hi.
  unfold format_slack_message, bind, lift, ret. rewrite Hn, Hd, Hi.
  cbn [now bind get_state record ret fst snd].
  destruct ds as [|d ds]; [reflexivity|].
  cbn [map truthy iterate].
  change (PDict d :: map PDict ds) with (map PDict (d :: ds)).
  rewrite append_member_lines_dicts. reflexivity.
Qed.

(** C10.  [format_slack_message] never fails on partially populated
    members.  The organization needs its three fields, nothing more; each
    member may be any dict.  The message is then produced, with one line
    per member, which shows ["Unknown"] for a missing name, ["No email"]
    for a missing email and no link when ["github_url"] is missing or
    [None]. *)
Theorem format_slack_message_partial_members
  (org name display_name id : pyval) (ds : list (list (pystr * pyval)))
  (s : State R) :
  getitem org (lit "name") = Ok name ->
  getitem org (lit "display_name") = Ok display_name ->
  getitem org (lit "id") = Ok id ->
  (exists text lines,
     format_slack_message W org (PList (map PDict ds)) s
       = (Ok text, snd (now W s)) /\
     text = join [10] (heading R name display_name id (clock W (history s))
                       ++ lines) /\
     (ds <> [] -> lines = map (expected_line R) ds) /\
     (ds = [] -> lines = [lit "No members found"]))
  /\
  (forall d,
     member_line R (PDict d) =
       Ok (bullet :: lit " " ++ shown_name R d ++ lit " (" ++ shown_email R d
             ++ lit ")" ++ shown_link R d) /\
     (dict_get (lit "name") d = None -> shown_name R d = lit "Unknown") /\
     (dict_get (lit "email") d = None -> shown_email R d = lit "No email") /\
     (dict_get (lit "github_url") d = None \/
      dict_get (lit "github_url") d = Some PNone -> shown_link R d = [])).
Proof.
  intros Hn Hd Hi. split.
  - eexists _, (match ds with
                 | [] => [lit "No members found"]
                 | _ :: _ => map (expected_line R) ds
                 end).
    split; [exact (@format_slack_message_run org name display_name id ds s Hn Hd Hi)|].
    split; [reflexivity|]. split.
    + destruct ds; [congruence | reflexivity].
    + now intros ->.
  - intros d. split; [apply member_line_dict|].
    unfold shown_name, shown_email, shown_link.
    split; [now intros ->|]. split; [now intros ->|].
    now intros [-> | ->].
Qed.

Lemma details_dicts members :
  details members =
  map PDict (map (fun m => [(lit "name", fst (fst m)); (lit "email", snd (fst m));
                            (lit "github_url", snd m)]) members).
Proof. unfold details. now rewrite map_map. Qed.

Lemma link_to_nonempty url : link_to R url <> [].
Proof. discriminate. Qed.

(** The line of an enriched member. *)
Lemma expected_line_detail (m : pyval * pyval * pyval) :
  expected_line R [(lit "name", fst (fst m)); (lit "email", snd (fst m));
                   (lit "github_url", snd m)]
  = line_of_detail R m.
Proof. reflexivity. Qed.

Lemma format_slack_message_details org name display_name id members s :
  getitem org (lit "name") = Ok name ->
  getitem org (lit "display_name") = Ok display_name ->
  getitem org (lit "id") = Ok id ->
  format_slack_message W org (PList (details members)) s =
  (Ok (join [10]
         (heading R name display_name id (clock W (history s)) ++
          match members with
          | [] => [lit "No members found"]
          | _ :: _ => map (line_of_detail R) members
          end)),
   snd (now W s)).
Proof.
  intros Hn Hd Hi. rewrite details_dicts.
  rewrite (@format_slack_message_run org name display_name id _ s Hn Hd Hi).
  destruct members as [|m members]; [reflexivity|].
  cbn [map]. rewrite map_map.
  rewrite (map_ext _ _ expected_line_detail). reflexivity.
Qed.

(** C6, as amended.  For an organization with the three fields and
    members enriched by [get_organization_members], the message is
    determined by the organization, the members and the clock reading: it
    is the heading (header, name, display name, id, time) followed by the
    member lines, joined by newlines.  With N > 0 members there are exactly
    N member lines, in order, each showing the name and the email of its
    member, and each omitting the link exactly when the member's
    ["github_url"] is falsy: [None], but also the empty string.  With no
    member the single line after the heading is ["No members found"]. *)
Theorem format_slack_message_rendering
  (org name display_name id : pyval) (members : list (pyval * pyval * pyval))
  (s : State R) :
  getitem org (lit "name") = Ok name ->
  getitem org (lit "display_name") = Ok display_name ->
  getitem org (lit "id") = Ok id ->
  exists text lines,
    format_slack_message W org (PList (details members)) s
      = (Ok text, snd (now W s)) /\
    text = join [10] (heading R name display_name id (clock W (history s))
                      ++ lines) /\
    str_contains (lit "*New Organization Found!* " ++ [party_popper]) text = true /\
    str_contains (str_of R name) text = true /\
    str_contains (str_of R display_name) text = true /\
    str_contains (str_of R id) text = true /\
    str_contains (strftime R (clock W (history s))) text = true /\
    (members = [] -> lines = [lit "No members found"]) /\
    (members <> [] ->
     List.length lines = List.length members /\
     Forall2
       (fun m line =>
          exists link,
            line = bullet :: lit " " ++ str_of R (fst (fst m)) ++ lit " ("
                     ++ str_of R (snd (fst m)) ++ lit ")" ++ link /\
            (link = [] <-> truthy (snd m) = false) /\
            (truthy (snd m) = true -> link = link_to R (snd m)))
       members lines).
Proof.
  intros Hn Hd Hi.
  exists (join [10] (heading R name display_name id (clock W (history s))
                     ++ match members with
                        | [] => [lit "No members found"]
                        | _ :: _ => map (line_of_detail R) members
                        end)),
         (match members with
          | [] => [lit "No members found"]
          | _ :: _ => map (line_of_detail R) members
          end).
  split; [exact (@format_slack_message_details org name display_name id members s Hn Hd Hi)|].
  split; [reflexivity|].
  split; [apply (join_contains [10] _ [] []); rewrite app_nil_r; now left|].
  split; [apply (join_contains [10] _ (lit "*Name:* ") []); rewrite app_nil_r;
          right; now left|].
  split; [apply (join_contains [10] _ (lit "*Display Name:* ") []);
          rewrite app_nil_r; right; right; now left|].
  split; [apply (join_contains [10] _ (lit "*ID:* ") []); rewrite app_nil_r;
          right; right; right; now left|].
  split; [apply (join_contains [10] _ (lit "*Time:* ") []); rewrite app_nil_r;
          right; right; right; right; now left|].
  split; [now intros ->|].
  intros Hne.
  assert (Hl : match members with
               | [] => [lit "No members found"]
               | _ :: _ => map (line_of_detail R) members
               end = map (line_of_detail R) members)
    by (destruct members; [congruence | reflexivity]).
  rewrite Hl. clear. rewrite length_map. split; [reflexivity|].
  induction members as [|[[n e] u] l IH]; cbn [map]; constructor; [|exact IH].
  cbn [fst snd]. unfold line_of_detail. cbn [fst snd].
  exists (if truthy u then link_to R u else []).
  split; [reflexivity|].
  destruct (truthy u).
  - split; [|reflexivity].
    split; [intros H; now apply link_to_nonempty in H | discriminate].
  - split; [split; reflexivity | discriminate].
Qed.

End Formatting.

(** C6, as stated, fails: a member whose ["github_url"] is the empty
    string, which is not [None], gets a line without a link. *)
Lemma empty_url_omits_link :
  member_line Demo.rt
    (detail (PStr (lit "Ada")) (PStr (lit "ada@example.com")) (PStr []))
  = Ok (bullet :: lit " Ada (ada@example.com)")
  /\ PStr [] <> PNone
  /\ exists text,
       fst (format_slack_message Demo.healthy Demo.orgB
              (PList [detail (PStr (lit "Ada")) (PStr (lit "ada@example.com"))
                        (PStr [])])
              (initial_state Demo.rt)) = Ok text /\
       str_contains (lit "GitHub") text = false.
Proof.
  split; [reflexivity|]. split; [discriminate|].
  eexists. split; reflexivity.
Qed.

(** C6 on the example: two enriched members, one with a profile. *)
Lemma format_slack_message_rendering_witness :
  getitem Demo.orgB (lit "name") = Ok (PStr (lit "beta")) /\
  getitem Demo.orgB (lit "display_name") = Ok (PStr (lit "beta")) /\
  getitem Demo.orgB (lit "id") = Ok (PStr (lit "B")) /\
  exists text,
    fst (format_slack_message Demo.healthy Demo.orgB
           (PList (details
                     [(PStr (lit "Ada"), PStr (lit "ada@example.com"),
                       PStr (lit "https://github.com/ada"));
                      (PStr (lit "Bob"), PStr (lit "bob@example.com"), PNone)]))
           (initial_state Demo.rt)) = Ok text /\
    str_contains (lit "*ID:* B") text = true.
Proof.
  split; [reflexivity|]. split; [reflexivity|]. split; [reflexivity|].
  destruct (@format_slack_message_rendering Demo.rt Demo.healthy Demo.orgB
              (PStr (lit "beta")) (PStr (lit "beta")) (PStr (lit "B"))
              [(PStr (lit "Ada"), PStr (lit "ada@example.com"),
                PStr (lit "https://github.com/ada"));
               (PStr (lit "Bob"), PStr (lit "bob@example.com"), PNone)]
              (initial_state Demo.rt) eq_refl eq_refl eq_refl)
    as (text & lines & Hrun & Htext & _).
  exists text. split; [now rewrite Hrun|].
  rewrite Htext. apply (join_contains [10] (lit "*ID:* B") [] []).
  right; right; right; now left.
Defined.

(** C10 on the example: a member with a name only and a member with no
    key at all. *)
Lemma format_slack_message_partial_members_witness :
  getitem Demo.orgB (lit "name") = Ok (PStr (lit "beta")) /\
  getitem Demo.orgB (lit "display_name") = Ok (PStr (lit "beta")) /\
  getitem Demo.orgB (lit "id") = Ok (PStr (lit "B")) /\
  exists text lines,
    format_slack_message Demo.healthy Demo.orgB
      (PList (map PDict [[(lit "name", PStr (lit "Ada"))]; []]))
      (initial_state Demo.rt)
    = (Ok text, snd (now Demo.healthy (initial_state Demo.rt))) /\
    lines = [bullet :: lit " Ada (No email)"; bullet :: lit " Unknown (No email)"].
Proof.
  split; [reflexivity|]. split; [reflexivity|]. split; [reflexivity|].
  destruct (proj1 (@format_slack_message_partial_members Demo.rt Demo.healthy
              Demo.orgB (PStr (lit "beta")) (PStr (lit "beta")) (PStr (lit "B"))
              [[(lit "name", PStr (lit "Ada"))]; []]
              (initial_state Demo.rt) eq_refl eq_refl eq_refl))
    as (text & lines & Hrun & _ & Hlines & _).
  exists text, lines. split; [exact Hrun|].
  rewrite Hlines by discriminate. reflexivity.
Defined.

(** *** [get_github_user_info] and [get_organization_members] *)

Section Enrichment.

Variable R : Runtime.
Variable W : World R.

Lemma quietly_ret {A} (a : A) : quietly (ret (R := R) a).
Proof. intros s. apply quiet_refl. Qed.

Lemma quietly_lift {A} (r : result A) : quietly (lift (R := R) r).
Proof. intros s. apply quiet_refl. Qed.

Lemma quietly_bind {A B} (m : M R A) (k : A -> M R B) :
  quietly m -> (forall a, quietly (k a)) -> quietly (bind m k).
Proof.
  intros Hm Hk s. unfold bind. specialize (Hm s).
  destruct (m s) as [[a|e] s1]; cbn [snd] in *; [|exact Hm].
  apply quiet_trans with s1; [exact Hm | apply Hk].
Qed.

Lemma quietly_try {A} (m : M R A) (h : exn -> M R A) :
  quietly m -> (forall e, quietly (h e)) -> quietly (try_except m h).
Proof.
  intros Hm Hh s. unfold try_except. specialize (Hm s).
  destruct (m s) as [[a|e] s1]; cbn [snd] in *; [exact Hm|].
  apply quiet_trans with s1; [exact Hm | apply Hh].
Qed.

Lemma quietly_send q :
  (forall d, r_payload q <> JsonBody d) -> quietly (send W q).
Proof. intros Hq s. now apply send_quiet. Qed.

Lemma yields_bind {A B} (m : M R A) (k : A -> M R B) (P : B -> Prop) :
  (forall a, yields (k a) P) -> yields (bind m k) P.
Proof.
  intros Hk s b s' H. unfold bind in H.
  destruct (m s) as [[a|e] s1]; [|discriminate]. exact (Hk a s1 b s' H).
Qed.

Lemma yields_ret {A} (a : A) (P : A -> Prop) : P a -> yields (ret (R := R) a) P.
Proof. intros H s b s' E. inversion E; subst. exact H. Qed.

Lemma yields_try {A} (m : M R A) (h : exn -> M R A) (P : A -> Prop) :
  yields m P -> (forall e, yields (h e) P) -> yields (try_except m h) P.
Proof.
  intros Hm Hh s b s' H. unfold try_except in H.
  destruct (m s) as [[a|e] s1] eqn:E.
  - inversion H; subst. exact (Hm s b s' E).
  - exact (Hh e s1 b s' H).
Qed.

Lemma quietly_github_user_info gid : quietly (get_github_user_info W gid).
Proof.
  unfold get_github_user_info. apply quietly_try.
  - apply quietly_bind; [apply quietly_send; discriminate|].
    intros r. destruct (status_code r =? 200)%Z;
      [apply quietly_lift | apply quietly_ret].
  - intros e. apply quietly_ret.
Qed.

Lemma quietly_member_detail member : quietly (member_detail W member).
Proof.
  unfold member_detail.
  apply quietly_bind; [apply quietly_lift|]. intros user_id.
  apply quietly_bind; [apply quietly_lift|]. intros marked.
  apply quietly_bind;
    [destruct marked; [apply quietly_lift | apply quietly_ret]|].
  intros github_id.
  apply quietly_bind;
    [destruct (truthy github_id);
     [apply quietly_github_user_info | apply quietly_ret]|].
  intros github_info.
  apply quietly_bind; [apply quietly_lift|]. intros name.
  apply quietly_bind; [apply quietly_lift|]. intros email.
  apply quietly_bind;
    [destruct (truthy github_info); [apply quietly_lift | apply quietly_ret]|].
  intros url. apply quietly_ret.
Qed.

Lemma yields_member_detail member : yields (member_detail W member) is_detail.
Proof.
  unfold member_detail.
  repeat (apply yields_bind; intros ?).
  apply yields_ret. unfold is_detail, detail. eauto.
Qed.

Lemma quietly_member_loop members acc : quietly (member_loop W members acc).
Proof.
  revert acc. induction members as [|m members IH]; intros acc;
    cbn [member_loop].
  - apply quietly_ret.
  - apply quietly_bind; [apply quietly_member_detail|]. intros entry. apply IH.
Qed.

Lemma yields_member_loop members acc :
  Forall is_detail acc ->
  yields (member_loop W members acc) (Forall is_detail).
Proof.
  revert acc. induction members as [|m members IH]; intros acc Hacc;
    cbn [member_loop].
  - now apply yields_ret.
  - intros s l s' H. unfold bind in H.
    destruct (member_detail W m s) as [[entry|e] s1] eqn:E; [|discriminate].
    apply (IH (acc ++ [entry])) in H; [exact H|].
    apply Forall_app. split; [exact Hacc|]. constructor; [|constructor].
    exact (@yields_member_detail m s entry s1 E).
Qed.

Lemma quietly_members org_id token :
  quietly (get_organization_members W org_id token).
Proof.
  unfold get_organization_members. apply quietly_try.
  - apply quietly_bind; [apply quietly_send; discriminate|].
    intros r. destruct (status_code r =? 200)%Z; [|apply quietly_ret].
    apply quietly_bind; [apply quietly_lift|]. intros members.
    apply quietly_bind; [apply quietly_lift|]. intros items.
    apply quietly_bind; [apply quietly_member_loop|]. intros l.
    apply quietly_ret.
  - intros e. apply quietly_ret.
Qed.

(** Whatever the network does, [get_organization_members] returns a list
    of entries. *)
Lemma get_organization_members_total org_id token s :
  exists entries s',
    get_organization_members W org_id token s = (Ok (PList entries), s') /\
    Forall is_detail entries /\
    quiet s s'.
Proof.
  pose proof (quietly_members org_id token s) as Hq.
  assert (Hy : yields (get_organization_members W org_id token)
                 (fun v => exists entries, v = PList entries /\
                                           Forall is_detail entries)).
  { unfold get_organization_members. apply yields_try.
    - apply yields_bind. intros r.
      destruct (status_code r =? 200)%Z.
      + apply yields_bind. intros members.
        apply yields_bind. intros items.
        intros s0 v s0' H. unfold bind in H.
        destruct (member_loop W items [] s0) as [[l|e] s1] eqn:E;
          [|discriminate].
        inversion H; subst. exists l. split; [reflexivity|].
        exact (@yields_member_loop items [] (Forall_nil _) s0 l s0' E).
      + apply yields_ret. exists []. auto.
    - intros e. apply yields_ret. exists []. auto. }
  destruct (get_organization_members W org_id token s) as [[v|e] s'] eqn:E.
  - destruct (Hy s v s' E) as (entries & -> & Hd).
    exists entries, s'. auto.
  - exfalso. unfold get_organization_members, try_except, ret in E.
    match type of E with
    | (match ?b with _ => _ end) = _ => destruct b as [[v|e'] s1]
    end; discriminate.
Qed.

Lemma is_detail_details entries :
  Forall is_detail entries -> exists members, entries = details members.
Proof.
  induction 1 as [|v l (n & e & u & ->) _ (members & ->)].
  - now exists [].
  - now exists ((n, e, u) :: members).
Qed.

(** [print] leaves the state alone, and succeeds on text the console
    accepts. *)
Lemma print_state text (s : State R) : snd (print W text s) = s.
Proof. unfold print. now destruct (forallb (console_accepts W) text). Qed.

Lemma print_ok text (s : State R) :
  forallb (console_accepts W) text = true -> print W text s = (Ok tt, s).
Proof. intros H. unfold print. now rewrite H. Qed.

Lemma quietly_print text : quietly (print W text).
Proof. intros s. rewrite print_state. apply quiet_refl. Qed.

(** A field after an ASCII label. *)
Lemma label_shows (label : pystr) v :
  forallb (console_accepts W) label = true ->
  forallb (console_accepts W) (label ++ str_of R v) = shows W v.
Proof. intros H. now rewrite forallb_app, H. Qed.

Lemma member_text_shows name email :
  forallb (console_accepts W)
    (lit "  - " ++ str_of R name ++ lit " (" ++ str_of R email ++ lit ")")
  = shows W name && shows W email.
Proof.
  rewrite !forallb_app. unfold shows.
  change (forallb (console_accepts W) (lit "  - ")) with true.
  change (forallb (console_accepts W) (lit " (")) with true.
  change (forallb (console_accepts W) (lit ")")) with true.
  cbn [andb]. now rewrite andb_true_r.
Qed.

Lemma detail_name n e u default :
  get_method (detail n e u) (lit "name") default = Ok n.
Proof. reflexivity. Qed.

Lemma detail_email n e u default :
  get_method (detail n e u) (lit "email") default = Ok e.
Proof. reflexivity. Qed.

Lemma print_members_details members s :
  print_members W (details members) s =
  (if details_show W members then Ok tt else Raise UnicodeEncodeError, s).
Proof.
  induction members as [|m members IH]; [reflexivity|].
  cbn [details map print_members details_show forallb].
  rewrite detail_name, detail_email.
  unfold bind at 1. unfold lift at 1. unfold bind at 1. unfold lift at 1.
  unfold bind at 1. unfold print. rewrite member_text_shows.
  destruct (shows W (fst (fst m)) && shows W (snd (fst m))); [|reflexivity].
  cbn [andb]. cbv [ret]. exact IH.
Qed.

Lemma quietly_print_members members : quietly (print_members W members).
Proof.
  induction members as [|m members IH]; cbn [print_members].
  - apply quietly_ret.
  - apply quietly_bind; [apply quietly_lift|]. intros name.
    apply quietly_bind; [apply quietly_lift|]. intros email.
    apply quietly_bind; [apply quietly_print|]. intros _. exact IH.
Qed.

(** The part of [print_organization_details] before its [try] block. *)
Lemma print_fields_run org name display_name id (k : M R unit) s :
  getitem org (lit "name") = Ok name ->
  getitem org (lit "display_name") = Ok display_name ->
  getitem org (lit "id") = Ok id ->
  shows W id = true -> shows W name = true -> shows W display_name = true ->
  bind (lift (getitem org (lit "id")))
    (fun id0 =>
       bind (print W (lit "ID: " ++ str_of R id0))
         (fun _ =>
            bind (lift (getitem org (lit "name")))
              (fun name0 =>
                 bind (print W (lit "Name: " ++ str_of R name0))
                   (fun _ =>
                      bind (lift (getitem org (lit "display_name")))
                        (fun display_name0 =>
                           bind (print W (lit "Display Name: "
                                            ++ str_of R display_name0))
                             (fun _ => k)))))) s
  = k s.
Proof.
  intros Hn Hd Hi Si Sn Sd.
  unfold bind at 1. unfold lift at 1. rewrite Hi.
  unfold bind at 1. rewrite print_ok by (now rewrite label_shows).
  unfold bind at 1. unfold lift at 1. rewrite Hn.
  unfold bind at 1. rewrite print_ok by (now rewrite label_shows).
  unfold bind at 1. unfold lift at 1. rewrite Hd.
  unfold bind at 1. rewrite print_ok by (now rewrite label_shows).
  reflexivity.
Qed.

(** With a webhook configured, [send_slack_message] posts the text once
    and returns normally, whatever the webhook answers. *)
Lemma send_slack_message_posts url message s :
  SLACK_WEBHOOK_URL W = Some url -> url <> [] ->
  exists s',
    send_slack_message W message s = (Ok tt, s') /\
    extends s s' [Http (slack_request url message)
                       (net W (history s) (slack_request url message))].
Proof.
  intros Hurl Hne. unfold send_slack_message. rewrite Hurl.
  cbn [env_val truthy str_of]. destruct url as [|c url]; [congruence|].
  cbn [negb].
  cbv [try_except bind send get_state record lift ret raise_for_status].
  cbn [history].
  destruct (net W (history s) (slack_request (c :: url) message)) as [|r].
  - eexists. split; [reflexivity|]. repeat split.
  - destruct ((400 <=? status_code r)%Z && (status_code r <? 600)%Z);
      eexists; (split; [reflexivity|]); repeat split.
Qed.

(** The loop over the entries just fetched. *)
Lemma print_entries_run members (s : State R) :
  (if truthy (PList (details members))
   then bind (lift (iterate (PList (details members))))
             (fun items => print_members W items)
   else ret tt) s
  = (if details_show W members then Ok tt else Raise UnicodeEncodeError, s).
Proof.
  destruct members as [|m members]; [reflexivity|].
  cbn [details map truthy]. unfold bind, lift. cbn [iterate].
  change (detail (fst (fst m)) (snd (fst m)) (snd m)
          :: map (fun m0 => detail (fst (fst m0)) (snd (fst m0)) (snd m0))
               members)
    with (details (m :: members)).
  apply print_members_details.
Qed.

(** [print_organization_details] for an organization whose three fields
    are there and can be printed, with a configured webhook: the members
    are fetched and the call returns normally; one message is posted if
    the lines of the members can be printed, and none otherwise. *)
Lemma print_organization_details_run org name display_name id url s :
  getitem org (lit "name") = Ok name ->
  getitem org (lit "display_name") = Ok display_name ->
  getitem org (lit "id") = Ok id ->
  shows W id = true -> shows W name = true -> shows W display_name = true ->
  SLACK_WEBHOOK_URL W = Some url -> url <> [] ->
  exists token sa members sb s' new,
    get_organization_members W id token sa = (Ok (PList (details members)), sb) /\
    print_organization_details W org s = (Ok tt, s') /\
    snapshot_file s' = snapshot_file s /\
    history s' = history s ++ new /\
    sleeps new = [] /\
    notifications new =
      if details_show W members
      then [message_for R name display_name id (clock W (history sb)) members]
      else [].
Proof.
  intros Hn Hd Hi Si Sn Sd Hurl Hne.
  unfold print_organization_details. unfold bind at 1.
  destruct (now_quiet W s) as (Hnow & Hq1).
  destruct (now W s) as [r1 s1]. cbn [fst snd] in Hnow, Hq1. subst r1.
  rewrite (@print_fields_run org name display_name id _ s1 Hn Hd Hi Si Sn Sd).
  unfold try_except. unfold bind at 1. unfold lift at 1. rewrite Hi.
  unfold bind at 1.
  destruct (get_auth0_token_quiet W s1) as ((token & Htok) & Hq2).
  destruct (get_auth0_token W s1) as [r2 s2]. cbn [fst snd] in Htok, Hq2.
  subst r2.
  destruct (get_organization_members_total id token s2)
    as (entries & s3 & Hmem & Hdet & Hq3).
  destruct (is_detail_details Hdet) as (members & ->).
  unfold bind at 1. rewrite Hmem.
  unfold bind at 1. rewrite print_entries_run.
  exists token, s2, members, s3.
  pose proof (quiet_trans Hq1 (quiet_trans Hq2 Hq3)) as Hq.
  destruct (details_show W members).
  - unfold bind at 1.
    rewrite (@format_slack_message_details R W org name display_name id members
               s3 Hn Hd Hi).
    fold (message_for R name display_name id (clock W (history s3)) members).
    set (msg := message_for R name display_name id (clock W (history s3)) members).
    destruct (now_quiet W s3) as (_ & Hq4).
    destruct (send_slack_message_posts msg (snd (now W s3)) Hurl Hne)
      as (s5 & Hsend & Hext).
    rewrite Hsend. exists s5.
    pose proof (quiet_trans Hq Hq4) as (Hfile & new & Hh & Hnot & Hsl).
    destruct Hext as (_ & _ & Hfile5 & Hh5).
    eexists. split; [exact Hmem|]. split; [reflexivity|].
    split; [congruence|]. split; [rewrite Hh5, Hh, <- app_assoc; reflexivity|].
    rewrite sleeps_app, notifications_app, Hsl, Hnot. split; reflexivity.
  - exists s3. destruct Hq as (Hfile & new & Hh & Hnot & Hsl).
    exists new. split; [exact Hmem|]. split; [reflexivity|].
    split; [exact Hfile|]. split; [exact Hh|]. split; [exact Hsl | exact Hnot].
Qed.


(** *** Entries that can be printed *)








(** *** Enrichment, member by member *)

Lemma github_user_info_run gid s :
  profile_shaped (net W (history s) (github_request R (PStr gid))) = true ->
  exists v,
    get_github_user_info W (PStr gid) s =
      (Ok v, snd (record (Http (github_request R (PStr gid))
                               (net W (history s) (github_request R (PStr gid)))) s))
    /\
    (if truthy v then get_method v (lit "html_url") PNone else Ok PNone)
    = Ok (profile_url (net W (history s) (github_request R (PStr gid)))).
Proof.
  intros Hshape.
  cbv [get_github_user_info try_except bind send get_state record lift ret].
  cbn [history snd]. unfold profile_shaped, profile_url in *.
  destruct (net W (history s) (github_request R (PStr gid))) as [|r].
  { exists PNone. split; reflexivity. }
  destruct (status_code r =? 200)%Z.
  2:{ exists PNone. split; reflexivity. }
  destruct (json_body r) as [v|e].
  2:{ exists PNone. split; reflexivity. }
  exists v. split; [reflexivity|].
  destruct v as [ | b | z | str | l | d ]; cbn [negb orb] in Hshape;
    try (apply negb_true_iff in Hshape; rewrite Hshape; reflexivity).
  destruct d as [|kv d]; reflexivity.
Qed.

Lemma member_detail_run d s :
  is_member (PDict d) = true ->
  (forall h gid, profile_shaped (net W h (github_request R (PStr gid))) = true) ->
  match github_id_of d with
  | None =>
      member_detail W (PDict d) s =
        (Ok (PDict [(lit "name", name_of d); (lit "email", email_of d);
                    (lit "github_url", PNone)]), s)
  | Some gid =>
      member_detail W (PDict d) s =
        (Ok (PDict [(lit "name", name_of d); (lit "email", email_of d);
                    (lit "github_url",
                     profile_url (net W (history s) (github_request R (PStr gid))))]),
         snd (record (Http (github_request R (PStr gid))
                           (net W (history s) (github_request R (PStr gid)))) s))
  end.
Proof.
  intros Hm Hshape.
  unfold is_member in Hm. unfold github_id_of, name_of, email_of.
  cbv [member_detail bind lift ret]. cbn [get_method].
  destruct (dict_get (lit "user_id") d) as [[ | b | z | u | l | d' ]|];
    try discriminate; [|reflexivity].
  cbn [contains_github].
  destruct (str_contains (lit "github") u); [|reflexivity].
  cbn [last_segment].
  destruct (last (split_on 124 u) []) as [|c gid]; [reflexivity|].
  destruct (github_user_info_run (c :: gid) s (Hshape _ _)) as (v & Hrun & Hurl).
  cbn [truthy]. rewrite Hrun.
  destruct (truthy v).
  - rewrite Hurl. reflexivity.
  - inversion Hurl as [Hu]. reflexivity.
Qed.

Lemma member_loop_run members :
  forallb is_member members = true ->
  (forall h gid, profile_shaped (net W h (github_request R (PStr gid))) = true) ->
  forall acc s,
  exists entries s',
    member_loop W members acc s = (Ok (acc ++ entries), s') /\
    enriched W (history s) members entries (history s').
Proof.
  intros Hm Hshape. induction members as [|m members IH]; intros acc s.
  - exists [], s. rewrite app_nil_r. split; [reflexivity | constructor].
  - cbn [forallb] in Hm. apply andb_true_iff in Hm as [Hm0 Hm].
    destruct m as [ | | | | | d ]; try discriminate.
    pose proof (member_detail_run d s Hm0 Hshape) as Hrun.
    cbn [member_loop]. unfold bind.
    destruct (github_id_of d) as [gid|] eqn:Eg; rewrite Hrun.
    + destruct (IH Hm (acc ++ [PDict [(lit "name", name_of d);
                                      (lit "email", email_of d);
                                      (lit "github_url",
                                       profile_url (net W (history s)
                                         (github_request R (PStr gid))))]])
                  (snd (record (Http (github_request R (PStr gid))
                                     (net W (history s)
                                        (github_request R (PStr gid)))) s)))
        as (entries & s' & Hloop & Henr).
      eexists (_ :: entries), s'. split.
      * rewrite Hloop, <- app_assoc. reflexivity.
      * now apply enriched_lookup.
    + destruct (IH Hm (acc ++ [PDict [(lit "name", name_of d);
                                      (lit "email", email_of d);
                                      (lit "github_url", PNone)]]) s)
        as (entries & s' & Hloop & Henr).
      eexists (_ :: entries), s'. split.
      * rewrite Hloop, <- app_assoc. reflexivity.
      * now apply enriched_plain.
Qed.

Lemma enriched_grows h members entries h' :
  enriched W h members entries h' -> exists new, h' = h ++ new.
Proof.
  induction 1 as [h | h d ms es h' _ _ (new & ->)
                 | h d gid ms es h' _ _ (new & ->)].
  - exists []. now rewrite app_nil_r.
  - now exists new.
  - eexists. now rewrite <- app_assoc.
Qed.

Lemma lookup_fails_null o : lookup_fails o = true -> profile_url o = PNone.
Proof.
  destruct o as [|r]; [reflexivity|]. unfold lookup_fails, profile_url.
  destruct (status_code r =? 200)%Z; [|reflexivity].
  destruct (json_body r); [discriminate | reflexivity].
Qed.

(** Every member has its entry, built from that member alone and from the
    outcome of its own lookup. *)
Lemma enriched_pointwise h members entries h' :
  enriched W h members entries h' ->
  Forall2
    (fun member entry =>
       exists d url,
         member = PDict d /\
         entry = detail (name_of d) (email_of d) url /\
         (github_id_of d = None -> url = PNone) /\
         (forall gid,
            github_id_of d = Some gid ->
            exists o,
              In (Http (github_request R (PStr gid)) o) h' /\
              url = profile_url o))
    members entries.
Proof.
  induction 1 as [h | h d ms es h' Hg Henr IH | h d gid ms es h' Hg Henr IH].
  - constructor.
  - constructor; [|exact IH].
    exists d, PNone. repeat split. intros gid Hgid. congruence.
  - constructor; [|exact IH].
    eexists d, _. split; [reflexivity|]. split; [reflexivity|].
    split; [congruence|].
    intros gid' Hgid. rewrite Hg in Hgid. inversion Hgid; subst gid'.
    eexists. split; [|reflexivity].
    destruct (enriched_grows Henr) as (new & ->).
    apply in_or_app. left. apply in_or_app. right. now left.
Qed.

(** C8.  When the listing is answered with status 200 and a list of
    members as the interface describes them, and profile lookups that
    succeed deliver objects, [get_organization_members] raises nothing and
    returns one entry per member, in order.  Each entry carries the name
    and the email of its member and a link decided by that member alone: no
    link ([None]) when the account reference lacks the marker or yields no
    identifier, and otherwise what the member's own lookup gave, which is
    [None] whenever that lookup failed (no answer, a status other than 200,
    a body that is not JSON).  A failed lookup changes nothing for the
    members before and after it: the chain of [enriched] goes on. *)
Theorem enrichment_isolated
  (org_id token : pyval) (s : State R) (r : response) (members : list pyval) :
  net W (history s) (members_request W org_id token) = Answer r ->
  status_code r = 200%Z ->
  json_body r = Ok (PList members) ->
  forallb is_member members = true ->
  (forall h gid, profile_shaped (net W h (github_request R (PStr gid))) = true) ->
  exists entries s',
    get_organization_members W org_id token s = (Ok (PList entries), s') /\
    enriched W (history s ++ [Http (members_request W org_id token) (Answer r)])
             members entries (history s') /\
    List.length entries = List.length members /\
    Forall2
      (fun member entry =>
         exists d url,
           member = PDict d /\
           entry = detail (name_of d) (email_of d) url /\
           (github_id_of d = None -> url = PNone) /\
           (forall gid,
              github_id_of d = Some gid ->
              exists o,
                In (Http (github_request R (PStr gid)) o) (history s') /\
                url = profile_url o /\
                (lookup_fails o = true -> url = PNone)))
      members entries /\
    (forall d u,
       dict_get (lit "user_id") d = Some (PStr u) ->
       str_contains (lit "github") u = false ->
       github_id_of d = None).
Proof.
  intros Hnet Hst Hbody Hm Hshape.
  destruct (@member_loop_run members Hm Hshape []
              (snd (record (Http (members_request W org_id token) (Answer r)) s)))
    as (entries & s' & Hloop & Henr).
  exists entries, s'.
  split.
  { cbv [get_organization_members try_except bind send get_state lift ret].
    cbn [history]. rewrite Hnet.
    cbv [bind]. cbn [record fst snd]. rewrite Hst. cbn [Z.eqb Pos.eqb].
    rewrite Hbody. cbn [iterate].
    cbn [record snd] in Hloop. rewrite Hloop. reflexivity. }
  cbn [record snd history] in Henr.
  split; [exact Henr|].
  pose proof (enriched_pointwise Henr) as Hpt.
  split; [symmetry; exact (Forall2_length Hpt)|].
  split.
  - eapply Forall2_impl; [|exact Hpt].
    intros m e (d & url & Hmd & He & Hnone & Hsome).
    exists d, url. repeat (split; [assumption|]).
    intros gid Hgid. destruct (Hsome gid Hgid) as (o & Hin & Hu).
    exists o. split; [exact Hin|]. split; [exact Hu|].
    intros Hf. rewrite Hu. now apply lookup_fails_null.
  - intros d u Hu Hc. unfold github_id_of. now rewrite Hu, Hc.
Qed.

End Enrichment.

(** *** The poll loop *)

Section PollLoop.

Variable R : Runtime.
Variable W : World R.





End PollLoop.

(** *** The theorems at work on the example worlds *)

Lemma demo_profiles_shaped (h : list (event Demo.rt)) (gid : pystr) :
  profile_shaped (net Demo.healthy h (github_request Demo.rt (PStr gid))) = true.
Proof.
  cbn [Demo.healthy Demo.world net]. unfold Demo.answer.
  cbn [github_request r_payload r_url str_of].
  change (is_prefix (lit "https://api.github.com/user/")
            (lit "https://api.github.com/user/" ++ gid))
    with (is_prefix [] gid).
  cbn [is_prefix].
  change (skipn 28 (lit "https://api.github.com/user/" ++ gid)) with gid.
  unfold Demo.profiles. destruct (str_eqb gid (lit "42")); reflexivity.
Qed.





(** C8 on the example: the profile of one member is found, the lookup of
    the other answers 404. *)
Lemma enrichment_isolated_witness :
  exists s',
    get_organization_members Demo.healthy (PStr (lit "B")) (PStr (lit "tok"))
      (initial_state Demo.rt)
    = (Ok (PList [detail (PStr (lit "Ada")) (PStr (lit "ada@example.com"))
                         (PStr (lit "https://github.com/ada"));
                  detail (PStr (lit "Bob")) (PStr (lit "bob@example.com"))
                         PNone]), s').
Proof.
  destruct (@enrichment_isolated Demo.rt Demo.healthy (PStr (lit "B"))
              (PStr (lit "tok")) (initial_state Demo.rt)
              {| status_code := 200;
                 json_body :=
                   Ok (PList [Demo.member "github|42" "Ada" "ada@example.com";
                              Demo.member "github|7" "Bob" "bob@example.com"]) |}
              [Demo.member "github|42" "Ada" "ada@example.com";
               Demo.member "github|7" "Bob" "bob@example.com"]
              eq_refl eq_refl eq_refl eq_refl demo_profiles_shaped)
    as (entries & s' & Hrun & _).
  exists s'. rewrite Hrun. f_equal.
  assert (E : fst (get_organization_members Demo.healthy (PStr (lit "B"))
                     (PStr (lit "tok")) (initial_state Demo.rt))
              = Ok (PList [detail (PStr (lit "Ada")) (PStr (lit "ada@example.com"))
                                  (PStr (lit "https://github.com/ada"));
                           detail (PStr (lit "Bob")) (PStr (lit "bob@example.com"))
                                  PNone])) by reflexivity.
  rewrite Hrun in E. exact E.
Defined.

(* ================================================================== *)
(** * Part III: further properties of the program                      *)
(* ================================================================== *)

Section Calm.

Variable R : Runtime.
Variable W : World R.










Lemma quietly_format_slack_message org members :
  quietly (format_slack_message W org members).
Proof.
  unfold format_slack_message.
  apply quietly_bind; [apply quietly_lift|]. intros name.
  apply quietly_bind; [apply quietly_lift|]. intros display_name.
  apply quietly_bind; [apply quietly_lift|]. intros id.
  apply quietly_bind; [intros s; apply now_quiet|]. intros t.
  apply quietly_bind; [|intros message; apply quietly_ret].
  destruct (truthy members); [|apply quietly_ret].
  apply quietly_bind; [apply quietly_lift|]. intros items. apply quietly_lift.
Qed.








Lemma known_self previous org :
  is_org org = true -> In org previous -> known previous org = true.
Proof.
  intros Ho Hin. apply known_spec; [exact Ho|]. now exists org.
Qed.

Lemma find_new_nothing orgs :
  forallb is_org orgs = true ->
  find_new_organizations (PList orgs) (PList orgs) = Ok [].
Proof.
  intros Ho. rewrite find_new_organizations_filter by exact Ho. f_equal.
  assert (H : forall l, (forall o, In o l -> In o orgs) ->
                        filter (fun org => negb (known orgs org)) l = []).
  { induction l as [|o l IH]; intros Hl; [reflexivity|].
    cbn [filter]. rewrite known_self.
    - cbn [negb]. apply IH. intros o' Ho'. apply Hl. now right.
    - apply (proj1 (forallb_forall _ _) Ho). apply Hl. now left.
    - apply Hl. now left. }
  apply H. auto.
Qed.

(** X3.  Steady state.  When the listing fetched is the one the snapshot
    holds, the turn completes without a single post to the webhook, sleeps
    60 seconds and leaves the file with the same content: organizations are
    not announced twice. *)
Theorem unchanged_listing_is_silent (s s1 : State R) (orgs : list pyval) :
  get_organizations W s = (Ok (PList orgs), s1) ->
  snapshot_file s = Some (Json.dumps (PList orgs)) ->
  forallb is_org orgs = true ->
  forallb Json.json_ok orgs = true ->
  exists s' new,
    cycle W s = (Ok tt, s') /\
    history s' = history s ++ new /\
    notifications new = [] /\
    sleeps new = [60%Z] /\
    snapshot_file s' = snapshot_file s.
Proof.
  intros Hfetch Hfile Horg Hok.
  pose proof (get_organizations_quiet W s) as Hq. rewrite Hfetch in Hq.
  cbn [snd] in Hq. destruct Hq as (Hf1 & new & Hh & Hn & Hs).
  assert (Hload : load_previous_orgs s1 = (Ok (PList orgs), s1)).
  { unfold load_previous_orgs, bind, get_state, lift.
    rewrite Hf1, Hfile, loads_dumps; [reflexivity | exact Hok]. }
  eexists _, (new ++ [Clock (clock W (history s1)); Sleep 60]).
  split.
  { unfold cycle. unfold bind at 1. rewrite Hfetch.
    unfold bind at 1. rewrite Hload.
    unfold bind at 1. unfold lift at 1. rewrite find_new_nothing by exact Horg.
    cbv [bind now get_state record ret save_previous_orgs write_snapshot sleep].
    reflexivity. }
  cbn [history snapshot_file].
  split; [rewrite Hh, <- !app_assoc; reflexivity|].
  split; [rewrite notifications_app, Hn; reflexivity|].
  split; [rewrite sleeps_app, Hs; reflexivity|].
  now rewrite Hfile.
Qed.

End Calm.

Section Announcements.

Variable R : Runtime.
Variable W : World R.

Lemma announceable_fields org :
  announceable org = true ->
  exists id name display_name,
    org_id org = Some id /\
    getitem org (lit "id") = Ok (PStr id) /\
    getitem org (lit "name") = Ok name /\
    getitem org (lit "display_name") = Ok display_name.
Proof.
  unfold announceable. intros H. apply andb_true_iff in H as [Ho Hf].
  destruct (is_org_getitem _ Ho) as (id & Hg & Hid).
  destruct (getitem org (lit "name")) as [name|]; [|discriminate].
  destruct (getitem org (lit "display_name")) as [dn|]; [|discriminate].
  exists id, name, dn. auto.
Qed.

Lemma load_previous_orgs_file (s s1 : State R) :
  snapshot_file s1 = snapshot_file s ->
  load_previous_orgs s1 = (fst (load_previous_orgs s), s1).
Proof.
  intros H. unfold load_previous_orgs, bind, get_state, lift, ret.
  rewrite H. destruct (snapshot_file s); reflexivity.
Qed.

(** With no webhook, [send_slack_message] does nothing. *)
Lemma send_slack_message_skips message (s : State R) :
  no_webhook (SLACK_WEBHOOK_URL W) = true ->
  send_slack_message W message s = (Ok tt, s).
Proof.
  unfold no_webhook, send_slack_message.
  destruct (SLACK_WEBHOOK_URL W) as [[|c url]|]; try discriminate; reflexivity.
Qed.

Lemma presentable_fields org :
  announceable org = true -> presentable W org = true ->
  exists id name display_name,
    org_id org = Some id /\
    getitem org (lit "id") = Ok (PStr id) /\
    getitem org (lit "name") = Ok name /\
    getitem org (lit "display_name") = Ok display_name /\
    shows W (PStr id) = true /\ shows W name = true /\
    shows W display_name = true.
Proof.
  intros Ha Hp.
  destruct (announceable_fields _ Ha) as (id & name & dn & Hid & Hi & Hn & Hd).
  unfold presentable in Hp. rewrite Hi, Hn, Hd in Hp.
  apply andb_true_iff in Hp as [Hp Sd]. apply andb_true_iff in Hp as [Si Sn].
  exists id, name, dn. auto 10.
Qed.

Lemma quietly_send_slack_message_skips message :
  no_webhook (SLACK_WEBHOOK_URL W) = true ->
  quietly (send_slack_message W message).
Proof.
  intros Hw s. rewrite send_slack_message_skips by exact Hw. apply quiet_refl.
Qed.

Lemma print_organization_details_silent org (s : State R) :
  announceable org = true ->
  presentable W org = true ->
  no_webhook (SLACK_WEBHOOK_URL W) = true ->
  exists s',
    print_organization_details W org s = (Ok tt, s') /\ quiet s s'.
Proof.
  intros Ha Hp Hw.
  destruct (presentable_fields _ Ha Hp)
    as (id & name & dn & _ & Hi & Hn & Hd & Si & Sn & Sd).
  unfold print_organization_details. unfold bind at 1.
  destruct (now_quiet W s) as (Hnow & Hq1).
  destruct (now W s) as [r1 s1]. cbn [fst snd] in Hnow, Hq1. subst r1.
  rewrite (@print_fields_run R W org name dn (PStr id) _ s1 Hn Hd Hi Si Sn Sd).
  match goal with
  | |- context [try_except ?b _] => set (body := b)
  end.
  assert (Hq : quietly body).
  { subst body.
    apply quietly_bind; [apply quietly_lift|]. intros id0.
    apply quietly_bind; [intros s0; apply get_auth0_token_quiet|]. intros token.
    apply quietly_bind; [apply quietly_members|]. intros members.
    apply quietly_bind.
    { destruct (truthy members); [|apply quietly_ret].
      apply quietly_bind; [apply quietly_lift|]. intros items.
      apply quietly_print_members. }
    intros _.
    apply quietly_bind; [apply quietly_format_slack_message|]. intros message.
    now apply quietly_send_slack_message_skips. }
  unfold try_except. specialize (Hq s1).
  destruct (body s1) as [[[]|e] s2]; cbn [snd] in Hq;
    (eexists; split; [reflexivity | exact (quiet_trans Hq1 Hq)]).
Qed.


Lemma for_each_new_silent orgs :
  no_webhook (SLACK_WEBHOOK_URL W) = true ->
  forallb announceable orgs = true ->
  forallb (presentable W) orgs = true ->
  forall s,
  exists s', for_each_new W orgs s = (Ok tt, s') /\ quiet s s'.
Proof.
  intros Hw. induction orgs as [|org orgs IH]; intros Ha Hp s.
  - exists s. split; [reflexivity | apply quiet_refl].
  - cbn [forallb] in Ha, Hp. apply andb_true_iff in Ha as [Ha0 Ha].
    apply andb_true_iff in Hp as [Hp0 Hp].
    destruct (@print_organization_details_silent org s Ha0 Hp0 Hw)
      as (s1 & Hrun & Hq1).
    destruct (IH Ha Hp s1) as (s' & Hrun2 & Hq2).
    exists s'. split; [cbn [for_each_new]; unfold bind; now rewrite Hrun|].
    exact (quiet_trans Hq1 Hq2).
Qed.

Lemma announceable_is_org orgs :
  forallb announceable orgs = true -> forallb is_org orgs = true.
Proof.
  intros H. apply forallb_forall. intros o Ho.
  apply (proj1 (forallb_forall _ _) H) in Ho. unfold announceable in Ho.
  now apply andb_true_iff in Ho as [Ho _].
Qed.

Lemma forallb_filter {A} (p q : A -> bool) l :
  forallb p l = true -> forallb p (filter q l) = true.
Proof.
  intros H. apply forallb_forall. intros x Hx.
  apply filter_In in Hx as [Hx _]. now apply (proj1 (forallb_forall _ _) H).
Qed.

Lemma known_nil org : known [] org = false.
Proof. reflexivity. Qed.



(** X5.  With the webhook unset or empty, for a listing whose fields the
    console can print, the turn still completes and the
    file still takes the whole listing, but nothing is posted: the
    organizations found in that turn are recorded as seen and will not be
    announced by a later turn either. *)
Theorem unset_webhook_records_silently
  (s s1 : State R) (current previous : list pyval) :
  get_organizations W s = (Ok (PList current), s1) ->
  fst (load_previous_orgs s) = Ok (PList previous) ->
  forallb is_org previous = true ->
  forallb announceable current = true ->
  forallb (presentable W) current = true ->
  no_webhook (SLACK_WEBHOOK_URL W) = true ->
  exists s' new,
    cycle W s = (Ok tt, s') /\
    history s' = history s ++ new /\
    notifications new = [] /\
    sleeps new = [60%Z] /\
    snapshot_file s' = Some (Json.dumps (PList current)) /\
    find_new_organizations (PList current) (PList current) = Ok [].
Proof.
  intros Hfetch Hload Hprev Hcur Hshow Hw.
  pose proof (get_organizations_quiet W s) as Hq. rewrite Hfetch in Hq.
  cbn [snd] in Hq. destruct Hq as (Hf1 & new1 & Hh1 & Hn1 & Hs1).
  pose proof (@load_previous_orgs_file s s1 Hf1) as Hload1. rewrite Hload in Hload1.
  pose proof (find_new_organizations_filter current previous
                (@announceable_is_org current Hcur) Hprev) as Hnew.
  set (new_orgs := filter (fun org => negb (known previous org)) current) in *.
  assert (Hbranch :
            exists s2,
              (match new_orgs with
               | _ :: _ => for_each_new W new_orgs
               | [] => bind (now W) (fun _ => ret tt)
               end) s1 = (Ok tt, s2) /\ quiet s1 s2).
  { destruct new_orgs as [|o l] eqn:E.
    - eexists. split; [reflexivity|]. cbn [snd].
      destruct (now_quiet W s1) as (_ & Hq). exact Hq.
    - assert (Ha : forallb announceable (o :: l) = true).
      { rewrite <- E. unfold new_orgs. now apply forallb_filter. }
      assert (Hp : forallb (presentable W) (o :: l) = true).
      { rewrite <- E. unfold new_orgs. now apply forallb_filter. }
      exact (@for_each_new_silent (o :: l) Hw Ha Hp s1). }
  destruct Hbranch as (s2 & Hrun & (Hf2 & new2 & Hh2 & Hn2 & Hs2)).
  eexists _, (new1 ++ new2 ++ [Sleep 60]).
  split.
  { unfold cycle. unfold bind at 1. rewrite Hfetch.
    unfold bind at 1. rewrite Hload1.
    unfold bind at 1. unfold lift at 1. rewrite Hnew.
    unfold bind at 1. rewrite Hrun.
    cbv [bind save_previous_orgs write_snapshot sleep record]. reflexivity. }
  cbn [history snapshot_file].
  split; [rewrite Hh2, Hh1, <- !app_assoc; reflexivity|].
  split; [rewrite !notifications_app, Hn1, Hn2; reflexivity|].
  split; [rewrite !sleeps_app, Hs1, Hs2; reflexivity|].
  split; [reflexivity|].
  apply find_new_nothing. now apply announceable_is_org.
Qed.

(** X6.  A new organization that lacks its name or its display name,
    both printed before the [try] block of [print_organization_details],
    makes that call raise
    after the clock has been read and before any request; the turn then
    fails: nothing is posted for it or for the organizations after it, the
    loop sleeps 300 seconds and the snapshot is not advanced. *)
Theorem incomplete_record_blocks_turn
  (s s1 : State R) (current previous org : pyval) (rest : list pyval) (e : exn) :
  get_organizations W s = (Ok current, s1) ->
  fst (load_previous_orgs s) = Ok previous ->
  find_new_organizations current previous = Ok (org :: rest) ->
  getitem org (lit "name") = Raise e \/
  getitem org (lit "display_name") = Raise e ->
  (forall s0, exists e',
     print_organization_details W org s0 = (Raise e', snd (now W s0)))
  /\
  exists s' new,
    poll_iteration W s = (Ok tt, s') /\
    history s' = history s ++ new /\
    notifications new = [] /\
    sleeps new = [300%Z] /\
    snapshot_file s' = snapshot_file s.
Proof.
  intros Hfetch Hload Hnew Hmiss.
  assert (Hprint : forall s0, exists e',
             print_organization_details W org s0 = (Raise e', snd (now W s0))).
  { intros s0. unfold print_organization_details.
    unfold bind at 1. destruct (now W s0) as [r0 s0'] eqn:En.
    assert (Hr0 : exists t, r0 = Ok t).
    { pose proof (now_quiet W s0) as (H & _). rewrite En in H. eauto. }
    destruct Hr0 as (t & ->). cbn [snd].
    unfold bind at 1. unfold lift at 1.
    destruct (getitem org (lit "id")) as [v1|e1]; [|eauto].
    unfold bind at 1.
    pose proof (print_state W (lit "ID: " ++ str_of R v1) s0') as P1.
    destruct (print W (lit "ID: " ++ str_of R v1) s0') as [[[]|e1] p1];
      cbn [snd] in P1; subst p1; [|eauto].
    unfold bind at 1. unfold lift at 1.
    destruct (getitem org (lit "name")) as [v2|e2]; [|eauto].
    unfold bind at 1.
    pose proof (print_state W (lit "Name: " ++ str_of R v2) s0') as P2.
    destruct (print W (lit "Name: " ++ str_of R v2) s0') as [[[]|e2] p2];
      cbn [snd] in P2; subst p2; [|eauto].
    unfold bind at 1. unfold lift at 1.
    destruct (getitem org (lit "display_name")) as [v3|e3]; [|eauto].
    destruct Hmiss as [H|H]; discriminate. }
  split; [exact Hprint|].
  pose proof (get_organizations_quiet W s) as Hq. rewrite Hfetch in Hq.
  cbn [snd] in Hq. destruct Hq as (Hf1 & new1 & Hh1 & Hn1 & Hs1).
  pose proof (@load_previous_orgs_file s s1 Hf1) as Hload1. rewrite Hload in Hload1.
  destruct (Hprint s1) as (e' & Hp).
  exists (snd (sleep (5 * 60) (snd (now W s1)))),
         (new1 ++ [Clock (clock W (history s1)); Sleep (5 * 60)]).
  split.
  { unfold poll_iteration, try_except, cycle.
    unfold bind at 1. rewrite Hfetch.
    unfold bind at 1. rewrite Hload1.
    unfold bind at 1. unfold lift at 1. rewrite Hnew.
    unfold bind at 1. cbn [for_each_new]. unfold bind at 1. rewrite Hp.
    reflexivity. }
  cbn [sleep now bind get_state record ret snd history snapshot_file].
  split; [rewrite Hh1, <- !app_assoc; reflexivity|].
  split; [rewrite notifications_app, Hn1; reflexivity|].
  split; [rewrite sleeps_app, Hs1; reflexivity|].
  exact Hf1.
Qed.

End Announcements.

Section Helpers.

Variable R : Runtime.
Variable W : World R.

Lemma member_detail_not_dict member (s : State R) :
  is_dict member = false ->
  member_detail W member s = (Raise AttributeError, s).
Proof. destruct member; try discriminate; reflexivity. Qed.

(** One item that is not a dict makes the loop over the members raise. *)
Lemma member_loop_raises items :
  existsb (fun m => negb (is_dict m)) items = true ->
  forall acc s, exists e s', member_loop W items acc s = (Raise e, s').
Proof.
  induction items as [|m items IH]; [discriminate|].
  cbn [existsb]. intros H acc s. cbn [member_loop]. unfold bind.
  destruct (is_dict m) eqn:Ed.
  - cbn [negb orb] in H.
    destruct (member_detail W m s) as [[entry|e] s1]; [|eauto].
    apply (IH H).
  - rewrite member_detail_not_dict by exact Ed. eauto.
Qed.

(** X7.  When the member listing cannot be used (no answer, a status other
    than 200, a body that is not JSON or not iterable, or a single item
    that is not an object), [get_organization_members] returns the empty
    list instead of raising, even if the items before the odd one were
    well formed, and it writes and posts nothing. *)
Theorem unusable_member_listing (org_id token : pyval) (s : State R) :
  listing_unusable (net W (history s) (members_request W org_id token)) = true ->
  exists s',
    get_organization_members W org_id token s = (Ok (PList []), s') /\
    quiet s s'.
Proof.
  intros H.
  pose proof (quietly_members W org_id token s) as Hq.
  exists (snd (get_organization_members W org_id token s)).
  split; [|exact Hq]. clear Hq.
  unfold get_organization_members, try_except. unfold bind at 1.
  cbv [send bind get_state record lift ret]. cbn [history].
  unfold listing_unusable in H.
  destruct (net W (history s) (members_request W org_id token)) as [|r];
    [reflexivity|].
  destruct (status_code r =? 200)%Z; [|reflexivity]. cbn [negb orb] in H.
  destruct (json_body r) as [v|e]; [|reflexivity].
  destruct (iterate v) as [items|e]; [|reflexivity].
  match goal with
  | |- context [member_loop W items [] ?s0] =>
      destruct (member_loop_raises items H [] s0) as (e & s' & ->)
  end.
  reflexivity.
Qed.





End Helpers.

(** *** The account reference *)

Lemma last_app_cons {A} (pre : list A) x l d :
  last (pre ++ x :: l) d = last (x :: l) d.
Proof.
  induction pre as [|p pre IH]; [reflexivity|].
  change ((p :: pre) ++ x :: l) with (p :: (pre ++ x :: l)).
  destruct (pre ++ x :: l) eqn:E; [now destruct pre|].
  cbn [last]. exact IH.
Qed.

Lemma split_on_cons sep s : exists h t, split_on sep s = h :: t.
Proof.
  destruct s as [|c s]; [now exists [], []|].
  cbn [split_on]. destruct (c =? sep); [eauto|].
  destruct (split_on sep s); eauto.
Qed.

Lemma split_on_free sep s :
  forallb (fun c => negb (c =? sep)) s = true -> split_on sep s = [s].
Proof.
  induction s as [|c s IH]; [reflexivity|].
  cbn [forallb]. intros H. apply andb_true_iff in H as [Hc Hs].
  cbn [split_on]. apply negb_true_iff in Hc. rewrite Hc, IH by exact Hs.
  reflexivity.
Qed.

Lemma split_on_app sep a b :
  exists p ps, split_on sep (a ++ sep :: b) = (p :: ps) ++ split_on sep b.
Proof.
  induction a as [|c a (p & ps & IH)].
  - exists [], []. cbn [app split_on]. now rewrite N.eqb_refl.
  - change ((c :: a) ++ sep :: b) with (c :: (a ++ sep :: b)).
    cbn [split_on]. rewrite IH. destruct (c =? sep).
    + now exists [], (p :: ps).
    + now exists (c :: p), ps.
Qed.

(** The last segment is what follows the last bar. *)
Lemma last_split_on sep a b :
  forallb (fun c => negb (c =? sep)) b = true ->
  last (split_on sep (a ++ sep :: b)) [] = b.
Proof.
  intros Hb. destruct (split_on_app sep a b) as (p & ps & ->).
  rewrite split_on_free by exact Hb. now rewrite last_app_cons.
Qed.

Section Reference.

Variable R : Runtime.
Variable W : World R.

(** X11.  Which profile is looked up.  For a member whose account
    reference carries the marker ["github"] anywhere and ends, after its
    last bar, in a segment [ext], the entry is built from exactly one
    request: a GET of [https://api.github.com/user/] followed by [ext],
    sent without headers; when that segment is empty no request is made
    and the entry has no profile link. *)
Theorem lookup_uses_last_segment
  (d : list (pystr * pyval)) (prefix ext : pystr) (s : State R) :
  dict_get (lit "user_id") d = Some (PStr (prefix ++ 124 :: ext)) ->
  str_contains (lit "github") (prefix ++ 124 :: ext) = true ->
  forallb (fun c => negb (c =? 124)) ext = true ->
  (forall h gid, profile_shaped (net W h (github_request R (PStr gid))) = true) ->
  match ext with
  | [] =>
      member_detail W (PDict d) s =
        (Ok (PDict [(lit "name", name_of d); (lit "email", email_of d);
                    (lit "github_url", PNone)]), s)
  | _ :: _ =>
      exists q,
        member_detail W (PDict d) s =
          (Ok (PDict [(lit "name", name_of d); (lit "email", email_of d);
                      (lit "github_url", profile_url (net W (history s) q))]),
           snd (record (Http q (net W (history s) q)) s)) /\
        r_method q = GET /\
        r_url q = lit "https://api.github.com/user/" ++ ext /\
        r_headers q = [] /\ r_params q = [] /\ r_payload q = NoPayload
  end.
Proof.
  intros Hu Hmark Hext Hshape.
  assert (Hm : is_member (PDict d) = true).
  { unfold is_member. now rewrite Hu. }
  pose proof (member_detail_run W d s Hm Hshape) as Hrun.
  unfold github_id_of in Hrun. rewrite Hu, Hmark in Hrun.
  rewrite last_split_on in Hrun by exact Hext.
  destruct ext as [|c ext]; [exact Hrun|].
  exists (github_request R (PStr (c :: ext))).
  split; [exact Hrun|]. repeat split.
Qed.

End Reference.

(** *** The diff on arbitrary records *)

Lemma collect_ids_defined l :
  (exists ids, collect_ids l = Ok ids) <-> forallb has_id l = true.
Proof.
  induction l as [|o l IH]; cbn [collect_ids forallb].
  - split; eauto.
  - unfold has_id at 1. unfold rbind at 1.
    destruct (getitem o (lit "id")) as [v|e].
    + destruct (hashable v); cbn [andb].
      * rewrite <- IH. unfold rbind.
        destruct (collect_ids l) as [ids|e];
          split; intros (x & H); try discriminate; eauto.
      * split; [intros (x & H); discriminate | discriminate].
    + split; [intros (x & H); discriminate | discriminate].
Qed.

Lemma keep_new_defined l ids :
  (exists kept, keep_new l ids = Ok kept) <-> forallb has_id l = true.
Proof.
  induction l as [|o l IH]; cbn [keep_new forallb].
  - split; eauto.
  - unfold has_id at 1. unfold rbind at 1.
    destruct (getitem o (lit "id")) as [v|e].
    + destruct (hashable v); cbn [andb].
      * rewrite <- IH. unfold rbind.
        destruct (keep_new l ids) as [kept|e];
          split; intros (x & H); try discriminate; eauto.
      * split; [intros (x & H); discriminate | discriminate].
    + split; [intros (x & H); discriminate | discriminate].
Qed.

(** X12.  When the diff fails.  On two lists [find_new_organizations]
    returns a result exactly when every item of both lists is a dict with
    a hashable value under ["id"]; a single record without an id, in the
    listing or in the snapshot, makes it raise. *)
Theorem find_new_organizations_defined (current previous : list pyval) :
  (exists fresh,
     find_new_organizations (PList current) (PList previous) = Ok fresh)
  <-> forallb has_id previous = true /\ forallb has_id current = true.
Proof.
  unfold find_new_organizations. cbn [iterate]. unfold rbind at 1 3.
  rewrite <- collect_ids_defined. unfold rbind.
  destruct (collect_ids previous) as [ids|e].
  - rewrite <- (keep_new_defined current ids). split.
    + intros H. split; [eauto | exact H].
    + intros (_ & H). exact H.
  - split; [intros (x & H); discriminate | intros ((x & H) & _); discriminate].
Qed.

(** X13.  The diff is stable.  For organization records, applying
    [find_new_organizations] to its own result changes nothing, and none
    of the organizations it returns is new against the listing they came
    from, which is the snapshot the loop saves. *)
Theorem find_new_organizations_stable (current previous : list pyval) :
  forallb is_org current = true ->
  forallb is_org previous = true ->
  exists fresh,
    find_new_organizations (PList current) (PList previous) = Ok fresh /\
    find_new_organizations (PList fresh) (PList previous) = Ok fresh /\
    find_new_organizations (PList fresh) (PList current) = Ok [].
Proof.
  intros Hc Hp.
  set (p := fun org => negb (known previous org)).
  assert (Hf : forallb is_org (filter p current) = true).
  { apply forallb_forall. intros o Ho. apply filter_In in Ho as [Ho _].
    now apply (proj1 (forallb_forall _ _) Hc). }
  exists (filter p current).
  split; [now apply find_new_organizations_filter|].
  split.
  - rewrite find_new_organizations_filter by assumption. f_equal.
    fold p. clear Hf. induction current as [|o l IH]; [reflexivity|].
    cbn [forallb] in Hc. apply andb_true_iff in Hc as [_ Hc].
    cbn [filter]. destruct (p o) eqn:E.
    + cbn [filter]. rewrite E. f_equal. now apply IH.
    + now apply IH.
  - rewrite find_new_organizations_filter by assumption. f_equal.
    assert (H : forall l, (forall o, In o l -> In o current) ->
                          filter (fun org => negb (known current org)) l = []).
    { induction l as [|o l IH]; intros Hl; [reflexivity|].
      cbn [filter]. rewrite known_self.
      - cbn [negb]. apply IH. intros o' Ho'. apply Hl. now right.
      - apply (proj1 (forallb_forall _ _) Hc). apply Hl. now left.
      - apply Hl. now left. }
    apply H. intros o Ho. now apply filter_In in Ho as [Ho _].
Qed.

(** *** The text of the snapshot *)

Lemma printable_app (a b : pystr) :
  forallb printable (a ++ b) = forallb printable a && forallb printable b.
Proof. apply forallb_app. Qed.

Lemma hex_digit_printable d : d < 16 -> printable (Json.hex_digit d) = true.
Proof.
  intros Hd. unfold Json.hex_digit, printable.
  destruct (d <? 10) eqn:E; apply andb_true_iff; split; apply N.leb_le;
    try (apply N.ltb_lt in E); lia.
Qed.

Lemma hex4_printable n : n < 65536 -> forallb printable (Json.hex4 n) = true.
Proof.
  intros Hn. unfold Json.hex4. cbn [forallb].
  rewrite !hex_digit_printable; [reflexivity | | | | ];
    try (apply N.mod_lt; discriminate).
  apply N.Div0.div_lt_upper_bound. exact Hn.
Qed.

Lemma u_escape_printable n :
  n < 65536 -> forallb printable (Json.u_escape n) = true.
Proof. intros Hn. unfold Json.u_escape. cbn [forallb]. now rewrite hex4_printable. Qed.

Lemma surrogate_below b x :
  b = 54 \/ b = 55 ->
  N.lor (b * 2 ^ 10) (N.land x 1023) < 65536.
Proof.
  intros Hb. change 1023 with (N.ones 10). rewrite N.land_ones.
  assert (H : x mod 2 ^ 10 < 2 ^ 10) by (apply N.mod_lt; discriminate).
  rewrite lor_disjoint_add by exact H.
  change (2 ^ 10) with 1024 in *. lia.
Qed.

Lemma escape_char_printable c : forallb printable (Json.escape_char c) = true.
Proof.
  unfold Json.escape_char.
  repeat match goal with
         | |- context [if ?c =? ?k then _ else _] =>
             destruct (c =? k); [reflexivity|]
         end.
  destruct ((c <? 32) || (126 <? c)) eqn:E.
  - destruct (c <? 65536) eqn:E2.
    + apply u_escape_printable. now apply N.ltb_lt.
    + cbv zeta. rewrite printable_app. apply andb_true_iff. split.
      * apply u_escape_printable.
        change 55296 with (54 * 2 ^ 10). apply surrogate_below. now left.
      * apply u_escape_printable.
        change 56320 with (55 * 2 ^ 10). apply surrogate_below. now right.
  - apply orb_false_iff in E as [E1 E2].
    apply N.ltb_ge in E1, E2. cbn [forallb]. unfold printable.
    rewrite andb_true_r. apply andb_true_iff. split; now apply N.leb_le.
Qed.

Lemma encode_string_printable s :
  forallb printable (Json.encode_string s) = true.
Proof.
  unfold Json.encode_string. cbn [forallb]. rewrite printable_app.
  cbn [forallb andb]. rewrite andb_true_r.
  induction s as [|c s IH]; [reflexivity|].
  cbn [flat_map]. rewrite printable_app, escape_char_printable. exact IH.
Qed.

Lemma uint_chars_printable d : forallb printable (Json.uint_chars d) = true.
Proof. induction d; cbn [Json.uint_chars forallb]; auto. Qed.

Lemma encode_int_printable z : forallb printable (Json.encode_int z) = true.
Proof.
  unfold Json.encode_int. destruct z; cbn [forallb];
    rewrite ?uint_chars_printable; reflexivity.
Qed.

Lemma join_printable sep parts :
  forallb printable sep = true ->
  Forall (fun p => forallb printable p = true) parts ->
  forallb printable (join sep parts) = true.
Proof.
  intros Hsep H. induction H as [|p parts Hp H IH]; [reflexivity|].
  destruct parts as [|q parts]; [exact Hp|].
  rewrite join_more, !printable_app, Hp, Hsep. exact IH.
Qed.

Lemma dumps_printable v : forallb printable (Json.dumps v) = true.
Proof.
  induction v as [ | b | z | s | l IH | d IH ] using pyval_induction.
  - reflexivity.
  - destruct b; reflexivity.
  - apply encode_int_printable.
  - apply encode_string_printable.
  - cbn [Json.dumps forallb]. rewrite printable_app.
    cbn [forallb andb]. rewrite andb_true_r.
    apply join_printable; [reflexivity|].
    induction IH as [|x l Hx _ IHl]; constructor; assumption.
  - cbn [Json.dumps forallb]. rewrite printable_app.
    cbn [forallb andb]. rewrite andb_true_r.
    apply join_printable; [reflexivity|].
    induction IH as [|[k x] d Hx _ IHd]; constructor; [|assumption].
    cbn [fst snd] in *. rewrite !printable_app, encode_string_printable, Hx.
    reflexivity.
Qed.

(** X14.  The snapshot is plain ASCII.  Whatever the listing holds,
    names with accents, emoji or control characters included, the file
    written by [save_previous_orgs] consists of printable ASCII characters
    only, since [json.dump] escapes everything else; and the call changes
    nothing of the state but the file. *)
Theorem snapshot_is_ascii (R : Runtime) (orgs : pyval) (s : State R) :
  exists text,
    save_previous_orgs orgs s =
      (Ok tt, {| cached_token := cached_token s;
                 token_expiry := token_expiry s;
                 snapshot_file := Some text;
                 history := history s |}) /\
    forallb printable text = true /\
    forall c, In c text -> 32 <= c <= 126.
Proof.
  exists (Json.dumps orgs). split; [reflexivity|].
  pose proof (dumps_printable orgs) as H. split; [exact H|].
  intros c Hc. apply (proj1 (forallb_forall _ _) H) in Hc.
  unfold printable in Hc. apply andb_true_iff in Hc as [H1 H2].
  apply N.leb_le in H1, H2. lia.
Qed.

(** *** The further properties on the example worlds *)


(** X3 on the example: A and B were seen, the provider lists A and B. *)
Lemma unchanged_listing_is_silent_witness :
  exists s' new,
    cycle Demo.healthy Demo.saw_AB = (Ok tt, s') /\
    history s' = history Demo.saw_AB ++ new /\
    notifications new = [] /\
    sleeps new = [60%Z] /\
    snapshot_file s' = snapshot_file Demo.saw_AB.
Proof.
  exact (@unchanged_listing_is_silent Demo.rt Demo.healthy Demo.saw_AB
           (snd (get_organizations Demo.healthy Demo.saw_AB))
           [Demo.orgA; Demo.orgB] eq_refl eq_refl eq_refl eq_refl).
Defined.



(** X5 on the example: the same turn without a webhook. *)
Lemma unset_webhook_records_silently_witness :
  exists s' new,
    cycle Demo.silent Demo.saw_A = (Ok tt, s') /\
    history s' = history Demo.saw_A ++ new /\
    notifications new = [] /\
    sleeps new = [60%Z] /\
    snapshot_file s' = Some (Json.dumps (PList [Demo.orgA; Demo.orgB])) /\
    find_new_organizations (PList [Demo.orgA; Demo.orgB])
                           (PList [Demo.orgA; Demo.orgB]) = Ok [].
Proof.
  exact (@unset_webhook_records_silently Demo.rt Demo.silent Demo.saw_A
           (snd (get_organizations Demo.silent Demo.saw_A))
           [Demo.orgA; Demo.orgB] [Demo.orgA]
           eq_refl eq_refl eq_refl eq_refl eq_refl eq_refl).
Defined.

(** X6 on the example: the provider lists a record without a name. *)
Lemma incomplete_record_blocks_turn_witness :
  exists s' new,
    poll_iteration Demo.lists_nameless (initial_state Demo.rt) = (Ok tt, s') /\
    history s' = history (initial_state Demo.rt) ++ new /\
    notifications new = [] /\
    sleeps new = [300%Z] /\
    snapshot_file s' = snapshot_file (initial_state Demo.rt).
Proof.
  exact (proj2 (@incomplete_record_blocks_turn Demo.rt Demo.lists_nameless
                  (initial_state Demo.rt)
                  (snd (get_organizations Demo.lists_nameless
                          (initial_state Demo.rt)))
                  (PList [Demo.nameless]) (PList []) Demo.nameless [] KeyError
                  eq_refl eq_refl eq_refl (or_introl eq_refl))).
Defined.

(** X7 on the example: the second item of the member listing is a
    string. *)
Lemma unusable_member_listing_witness :
  exists s',
    get_organization_members Demo.odd_members (PStr (lit "B")) (PStr (lit "tok"))
      (initial_state Demo.rt) = (Ok (PList []), s') /\
    quiet (initial_state Demo.rt) s'.
Proof.
  exact (@unusable_member_listing Demo.rt Demo.odd_members (PStr (lit "B"))
           (PStr (lit "tok")) (initial_state Demo.rt) eq_refl).
Defined.


(** X11 on the example: the member [github|42]. *)
Lemma lookup_uses_last_segment_witness :
  exists q,
    member_detail Demo.healthy (Demo.member "github|42" "Ada" "ada@example.com")
      (initial_state Demo.rt) =
      (Ok (detail (PStr (lit "Ada")) (PStr (lit "ada@example.com"))
             (profile_url (net Demo.healthy [] q))),
       snd (record (Http q (net Demo.healthy [] q)) (initial_state Demo.rt))) /\
    r_method q = GET /\
    r_url q = lit "https://api.github.com/user/42" /\
    r_headers q = [] /\ r_params q = [] /\ r_payload q = NoPayload.
Proof.
  exact (@lookup_uses_last_segment Demo.rt Demo.healthy
           [(lit "user_id", PStr (lit "github|42"));
            (lit "name", PStr (lit "Ada"));
            (lit "email", PStr (lit "ada@example.com"))]
           (lit "github") (lit "42") (initial_state Demo.rt)
           eq_refl eq_refl eq_refl demo_profiles_shaped).
Defined.

(** X12 on the example: a record without an id in the snapshot. *)
Lemma find_new_organizations_defined_witness :
  (exists fresh,
     find_new_organizations (PList [Demo.orgA; Demo.orgB]) (PList [Demo.orgA])
     = Ok fresh) /\
  ~ (exists fresh,
       find_new_organizations (PList [Demo.orgA])
                              (PList [PDict [(lit "name", PStr (lit "x"))]])
       = Ok fresh).
Proof.
  split.
  - exact (proj2 (find_new_organizations_defined [Demo.orgA; Demo.orgB]
                    [Demo.orgA]) (conj eq_refl eq_refl)).
  - intros H.
    apply (proj1 (find_new_organizations_defined [Demo.orgA]
                    [PDict [(lit "name", PStr (lit "x"))]])) in H.
    destruct H as [H _]. discriminate H.
Defined.

(** X13 on the example: A was seen, the provider lists A and B. *)
Lemma find_new_organizations_stable_witness :
  exists fresh,
    find_new_organizations (PList [Demo.orgA; Demo.orgB]) (PList [Demo.orgA])
      = Ok fresh /\
    find_new_organizations (PList fresh) (PList [Demo.orgA]) = Ok fresh /\
    find_new_organizations (PList fresh) (PList [Demo.orgA; Demo.orgB]) = Ok [].
Proof.
  exact (find_new_organizations_stable [Demo.orgA; Demo.orgB] [Demo.orgA]
           eq_refl eq_refl).
Defined.

(** *** The console *)

Section Console.

Variable R : Runtime.
Variable W : World R.

(** A turn whose first new organization makes
    [print_organization_details] raise. *)
Lemma first_new_raises (s s1 : State R) current previous org rest :
  get_organizations W s = (Ok current, s1) ->
  fst (load_previous_orgs s) = Ok previous ->
  find_new_organizations current previous = Ok (org :: rest) ->
  (exists e, print_organization_details W org s1 = (Raise e, snd (now W s1))) ->
  exists s' new,
    poll_iteration W s = (Ok tt, s') /\
    history s' = history s ++ new /\
    notifications new = [] /\
    sleeps new = [300%Z] /\
    snapshot_file s' = snapshot_file s.
Proof.
  intros Hfetch Hload Hnew (e & Hp).
  pose proof (get_organizations_quiet W s) as Hq. rewrite Hfetch in Hq.
  cbn [snd] in Hq. destruct Hq as (Hf1 & new1 & Hh1 & Hn1 & Hs1).
  pose proof (@load_previous_orgs_file R s s1 Hf1) as Hload1.
  rewrite Hload in Hload1.
  exists (snd (sleep (5 * 60) (snd (now W s1)))),
         (new1 ++ [Clock (clock W (history s1)); Sleep (5 * 60)]).
  split.
  { unfold poll_iteration, try_except, cycle.
    unfold bind at 1. rewrite Hfetch.
    unfold bind at 1. rewrite Hload1.
    unfold bind at 1. unfold lift at 1. rewrite Hnew.
    unfold bind at 1. cbn [for_each_new]. unfold bind at 1. rewrite Hp.
    reflexivity. }
  cbn [sleep now bind get_state record ret snd history snapshot_file].
  split; [rewrite Hh1, <- !app_assoc; reflexivity|].
  split; [rewrite notifications_app, Hn1; reflexivity|].
  split; [rewrite sleeps_app, Hs1; reflexivity|].
  exact Hf1.
Qed.

(** X15.  A new organization with its three fields, one of which holds a
    character the console cannot encode, makes
    [print_organization_details] raise [UnicodeEncodeError] at one of the
    [print] calls before its [try] block, after the clock has been read and
    before any request.  The turn then fails: nothing is posted for it or
    for the organizations after it, the loop sleeps 300 seconds and the
    snapshot is not advanced. *)
Theorem unprintable_record_blocks_turn
  (s s1 : State R) (current previous org id name display_name : pyval)
  (rest : list pyval) :
  get_organizations W s = (Ok current, s1) ->
  fst (load_previous_orgs s) = Ok previous ->
  find_new_organizations current previous = Ok (org :: rest) ->
  getitem org (lit "id") = Ok id ->
  getitem org (lit "name") = Ok name ->
  getitem org (lit "display_name") = Ok display_name ->
  shows W id && shows W name && shows W display_name = false ->
  (forall s0,
     print_organization_details W org s0
     = (Raise UnicodeEncodeError, snd (now W s0)))
  /\
  exists s' new,
    poll_iteration W s = (Ok tt, s') /\
    history s' = history s ++ new /\
    notifications new = [] /\
    sleeps new = [300%Z] /\
    snapshot_file s' = snapshot_file s.
Proof.
  intros Hfetch Hload Hnew Hi Hn Hd Hshow.
  assert (Hprint : forall s0,
             print_organization_details W org s0
             = (Raise UnicodeEncodeError, snd (now W s0))).
  { intros s0. unfold print_organization_details.
    unfold bind at 1. destruct (now_quiet W s0) as (Hnow & _).
    destruct (now W s0) as [r0 s0']. cbn [fst snd] in Hnow |- *. subst r0.
    unfold bind at 1. unfold lift at 1. rewrite Hi.
    unfold bind at 1. unfold print at 1. rewrite label_shows by reflexivity.
    destruct (shows W id); [|reflexivity]. cbv [ret].
    unfold bind at 1. unfold lift at 1. rewrite Hn.
    unfold bind at 1. unfold print at 1. rewrite label_shows by reflexivity.
    destruct (shows W name); [|reflexivity]. cbv [ret].
    unfold bind at 1. unfold lift at 1. rewrite Hd.
    unfold bind at 1. unfold print at 1. rewrite label_shows by reflexivity.
    destruct (shows W display_name); [discriminate | reflexivity]. }
  split; [exact Hprint|].
  apply (@first_new_raises s s1 current previous org rest Hfetch Hload Hnew).
  eexists. apply Hprint.
Qed.

(** The entries of a listing of members carry their names and emails. *)
Lemma members_entries org_id token (s : State R) r items :
  net W (history s) (members_request W org_id token) = Answer r ->
  status_code r = 200%Z ->
  json_body r = Ok (PList items) ->
  forallb is_member items = true ->
  (forall h gid, profile_shaped (net W h (github_request R (PStr gid))) = true) ->
  exists entries s',
    get_organization_members W org_id token s = (Ok (PList entries), s') /\
    Forall2 (fun member entry =>
               exists d url, member = PDict d /\
                             entry = detail (name_of d) (email_of d) url)
            items entries.
Proof.
  intros Hnet Hst Hbody Hm Hshape.
  destruct (@member_loop_run R W items Hm Hshape []
              (snd (record (Http (members_request W org_id token) (Answer r)) s)))
    as (entries & s' & Hloop & Henr).
  exists entries, s'. split.
  { cbv [get_organization_members try_except bind send get_state lift ret].
    cbn [history]. rewrite Hnet.
    cbv [bind]. cbn [record fst snd]. rewrite Hst. cbn [Z.eqb Pos.eqb].
    rewrite Hbody. cbn [iterate].
    cbn [record snd] in Hloop. rewrite Hloop. reflexivity. }
  eapply Forall2_impl; [|exact (enriched_pointwise Henr)].
  intros m e (d & url & Hmd & He & _). eauto.
Qed.

Lemma details_show_members items members :
  Forall2 (fun member entry =>
             exists d url, member = PDict d /\
                           entry = detail (name_of d) (email_of d) url)
          items (details members) ->
  details_show W members = forallb (member_shows W) items.
Proof.
  revert items. induction members as [|m members IH]; intros items H.
  - inversion H; subst. reflexivity.
  - cbn [details map] in H. inversion H as [|x y l l' (d & u & -> & E) H']; subst.
    unfold detail in E. inversion E; subst.
    cbn [details_show forallb member_shows].
    unfold details_show in IH. rewrite H1, H2. now rewrite (IH _ H').
Qed.

(** X16.  A member whose name or email holds a character the console
    cannot encode silences the announcement of its organization: the
    [print] of its line raises inside the [try] block, the handler
    swallows the error, and [print_organization_details] returns normally
    without having posted anything.  The loop over the new organizations
    goes on, so the turn can complete and record the organization as
    seen. *)
Theorem unprintable_member_silences_post
  (org id name display_name : pyval) (url : pystr) (s : State R) :
  getitem org (lit "name") = Ok name ->
  getitem org (lit "display_name") = Ok display_name ->
  getitem org (lit "id") = Ok id ->
  shows W id = true -> shows W name = true -> shows W display_name = true ->
  SLACK_WEBHOOK_URL W = Some url -> url <> [] ->
  (forall h token,
     exists r items,
       net W h (members_request W id token) = Answer r /\
       status_code r = 200%Z /\
       json_body r = Ok (PList items) /\
       forallb is_member items = true /\
       forallb (member_shows W) items = false) ->
  (forall h gid, profile_shaped (net W h (github_request R (PStr gid))) = true) ->
  exists s' new,
    print_organization_details W org s = (Ok tt, s') /\
    history s' = history s ++ new /\
    snapshot_file s' = snapshot_file s /\
    notifications new = [] /\
    sleeps new = [] /\
    (forall rest, for_each_new W (org :: rest) s = for_each_new W rest s').
Proof.
  intros Hn Hd Hi Si Sn Sd Hurl Hne Hlist Hshape.
  destruct (@print_organization_details_run R W org name display_name id url s
              Hn Hd Hi Si Sn Sd Hurl Hne)
    as (token & sa & members & sb & s' & new & Hmem & Hrun & Hfile & Hh & Hsl
        & Hnot).
  destruct (Hlist (history sa) token) as (r & items & Hnet & Hst & Hbody & Hm & Hhide).
  destruct (@members_entries id token sa r items Hnet Hst Hbody Hm Hshape)
    as (entries & s'' & Hmem' & Hall).
  rewrite Hmem' in Hmem. inversion Hmem; subst entries s''.
  rewrite (@details_show_members items members Hall), Hhide in Hnot.
  exists s', new. repeat (split; [assumption|]).
  intros rest. cbn [for_each_new]. unfold bind. now rewrite Hrun.
Qed.

End Console.

(** X15 on the example: the name of the only organization listed ends in
    a lone surrogate, which UTF-8 cannot encode. *)
Lemma unprintable_record_blocks_turn_witness :
  print_organization_details Demo.lists_surrogate Demo.orgS (initial_state Demo.rt)
    = (Raise UnicodeEncodeError,
       snd (now Demo.lists_surrogate (initial_state Demo.rt))) /\
  exists s' new,
    poll_iteration Demo.lists_surrogate (initial_state Demo.rt) = (Ok tt, s') /\
    history s' = history (initial_state Demo.rt) ++ new /\
    notifications new = [] /\
    sleeps new = [300%Z] /\
    snapshot_file s' = snapshot_file (initial_state Demo.rt).
Proof.
  destruct (@unprintable_record_blocks_turn Demo.rt Demo.lists_surrogate
              (initial_state Demo.rt)
              (snd (get_organizations Demo.lists_surrogate
                      (initial_state Demo.rt)))
              (PList [Demo.orgS]) (PList []) Demo.orgS
              (PStr (lit "S")) (PStr (lit "b" ++ [55296])) (PStr (lit "sigma")) []
              eq_refl eq_refl eq_refl eq_refl eq_refl eq_refl eq_refl)
    as (Hprint & Hturn).
  split; [apply Hprint | exact Hturn].
Defined.

Lemma demo_odd_name (h : list (event Demo.rt)) (token : pyval) :
  exists r items,
    net Demo.odd_name h (members_request Demo.odd_name (PStr (lit "B")) token)
      = Answer r /\
    status_code r = 200%Z /\
    json_body r = Ok (PList items) /\
    forallb is_member items = true /\
    forallb (member_shows Demo.odd_name) items = false.
Proof. eexists _, _. repeat split. Qed.

Lemma demo_odd_name_profiles (h : list (event Demo.rt)) (gid : pystr) :
  profile_shaped (net Demo.odd_name h (github_request Demo.rt (PStr gid))) = true.
Proof. exact (demo_profiles_shaped h gid). Qed.

(** X16 on the example: the only member of B has a name that ends in a
    lone surrogate. *)
Lemma unprintable_member_silences_post_witness :
  exists s' new,
    print_organization_details Demo.odd_name Demo.orgB (initial_state Demo.rt)
      = (Ok tt, s') /\
    history s' = history (initial_state Demo.rt) ++ new /\
    snapshot_file s' = snapshot_file (initial_state Demo.rt) /\
    notifications new = [] /\
    sleeps new = [] /\
    (forall rest,
       for_each_new Demo.odd_name (Demo.orgB :: rest) (initial_state Demo.rt)
       = for_each_new Demo.odd_name rest s').
Proof.
  assert (Hurl : Demo.webhook <> []) by discriminate.
  exact (@unprintable_member_silences_post Demo.rt Demo.odd_name Demo.orgB
           (PStr (lit "B")) (PStr (lit "beta")) (PStr (lit "beta"))
           Demo.webhook (initial_state Demo.rt)
           eq_refl eq_refl eq_refl eq_refl eq_refl eq_refl eq_refl Hurl
           demo_odd_name demo_odd_name_profiles).
Defined.
